(** * TLVArchive downloader: ledger, crawl job, reconciler and report merge

    A shallow embedding of [main.py]: the status ledger ([CsvTikHolder]),
    the document record store ([CsvDocHolder]), the crawl job
    ([GushChelka]), the download worker and the reporter.

    Conventions of the embedding.
    - Python [int] is [Z]; the row cursors, which only count up from 0 and
      are used as slice offsets, are [nat].
    - The cells of the ledger are strings, as in the code: counters are
      stored through [str].
    - A holder keeps its columns row-wise: the code appends to all columns
      at once ([add]), so a row of the holder is one record here.
    - Logging ([to_log], the [prefix] string) is left out.
    - Text is ASCII. *)

From Stdlib Require Import ZArith QArith Qround Lqa Ascii String.
From Stdlib Require Import DecimalString DecimalPos DecimalZ.
From stdpp Require Import base option list strings gmap.

Local Open Scope string_scope.
Local Open Scope list_scope.
Local Open Scope Z_scope.

(** ** Module constants *)

Definition WAIT_TIME : Z := 120.
Definition WAIT_ALL : bool := true.
Definition COMPLETED : string := "completed".
Definition MISMATCH : string := "mismatch".
Definition EMPTY : string := "".
Definition NO_RESULTS : string := "no_results".
Definition FILE_PREFIX : string := "log__".

(** Indexes in the data tables. *)
Definition DATE : nat := 0.
Definition TYPE : nat := 1.
Definition REQUEST : nat := 3.
Definition PERMIT : nat := 4.
Definition SIZE : nat := 5.
Definition PDFBTN : nat := 7.

(** ** Python builtins used by the code *)

(** [str(n)] for an integer. *)
Definition str (z : Z) : string := NilZero.string_of_int (Z.to_int z).

(** [needle in hay] for two strings. *)
Fixpoint contains (needle hay : string) : bool :=
  String.prefix needle hay ||
  match hay with
  | EmptyString => false
  | String _ hay' => contains needle hay'
  end.

(** [x in l] for a list of strings. *)
Definition mem (x : string) (l : list string) : bool := bool_decide (x ∈ l).

(** Resolution of a list index: negative indexes count from the end,
    anything out of range is an [IndexError] ([None]). *)
Definition py_index {A} (l : list A) (i : Z) : option nat :=
  if bool_decide (0 <= i < Z.of_nat (length l)) then Some (Z.to_nat i)
  else if bool_decide (- Z.of_nat (length l) <= i < 0)
       then Some (Z.to_nat (Z.of_nat (length l) + i))
       else None.

(** [l[i] = f(l[i])]. *)
Definition py_alter {A} (f : A → A) (i : Z) (l : list A) : option (list A) :=
  n ← py_index l i; Some (alter f n l).

(** [enumerate]. *)
Definition enumerate {A} (l : list A) : list (nat * A) := imap (λ i x, (i, x)) l.

(** Exceptions and outcomes.  [Hang] is a call that never returns. *)
Inductive exn := IndexError | ValueError | TypeError | AttributeError | WebDriverException.

Inductive res (A : Type) :=
  | Ok (a : A)
  | Raise (e : exn)
  | Hang.
Arguments Ok {A} a.
Arguments Raise {A} e.
Arguments Hang {A}.

(** ** The status ledger *)

Module CsvTikHolder.

(** One row, in the order of [TIK_COLUMNS]. *)
Record record := Record {
  ktatrova : string;
  ms_gush : string;
  ms_chelka : string;
  tik_id : string;
  status : string;
  no_results : string;
  docs_in_csv : string;
  docs_in_directory : string;
  docs_in_web : string;
  docs_in_csv_not_in_dir : string;
  docs_in_dir_not_in_csv : string
}.

Definition set_status (v : string) (r : record) : record :=
  Record (ktatrova r) (ms_gush r) (ms_chelka r) (tik_id r) v (no_results r)
         (docs_in_csv r) (docs_in_directory r) (docs_in_web r)
         (docs_in_csv_not_in_dir r) (docs_in_dir_not_in_csv r).
Definition set_no_results (v : string) (r : record) : record :=
  Record (ktatrova r) (ms_gush r) (ms_chelka r) (tik_id r) (status r) v
         (docs_in_csv r) (docs_in_directory r) (docs_in_web r)
         (docs_in_csv_not_in_dir r) (docs_in_dir_not_in_csv r).
Definition set_docs_in_csv (v : string) (r : record) : record :=
  Record (ktatrova r) (ms_gush r) (ms_chelka r) (tik_id r) (status r) (no_results r)
         v (docs_in_directory r) (docs_in_web r)
         (docs_in_csv_not_in_dir r) (docs_in_dir_not_in_csv r).
Definition set_docs_in_directory (v : string) (r : record) : record :=
  Record (ktatrova r) (ms_gush r) (ms_chelka r) (tik_id r) (status r) (no_results r)
         (docs_in_csv r) v (docs_in_web r)
         (docs_in_csv_not_in_dir r) (docs_in_dir_not_in_csv r).
Definition set_docs_in_web (v : string) (r : record) : record :=
  Record (ktatrova r) (ms_gush r) (ms_chelka r) (tik_id r) (status r) (no_results r)
         (docs_in_csv r) (docs_in_directory r) v
         (docs_in_csv_not_in_dir r) (docs_in_dir_not_in_csv r).
Definition set_docs_in_csv_not_in_dir (v : string) (r : record) : record :=
  Record (ktatrova r) (ms_gush r) (ms_chelka r) (tik_id r) (status r) (no_results r)
         (docs_in_csv r) (docs_in_directory r) (docs_in_web r)
         v (docs_in_dir_not_in_csv r).
Definition set_docs_in_dir_not_in_csv (v : string) (r : record) : record :=
  Record (ktatrova r) (ms_gush r) (ms_chelka r) (tik_id r) (status r) (no_results r)
         (docs_in_csv r) (docs_in_directory r) (docs_in_web r)
         (docs_in_csv_not_in_dir r) v.

(** [create_status_record], with the [str] that [add] applies to the
    counters. *)
Definition create_status_record (ktatrova gush chelka tik_id status no_results : string)
    (docs_in_csv docs_in_directory docs_in_web
     docs_in_csv_not_in_dir docs_in_dir_not_in_csv : Z) : record :=
  Record ktatrova gush chelka tik_id status no_results
         (str docs_in_csv) (str docs_in_directory) (str docs_in_web)
         (str docs_in_csv_not_in_dir) (str docs_in_dir_not_in_csv).

Record t := Holder {
  rows : list record;
  (** mapping from key to index *)
  key_to_index : gmap string nat;
  next_index : nat;
  (** all queued tik_ids *)
  tik_ids_queued : gset string
}.

Definition empty : t := Holder [] ∅ 0 ∅.

Definition set_rows (f : list record → list record) (h : t) : t :=
  Holder (f (rows h)) (key_to_index h) (next_index h) (tik_ids_queued h).

(** The composite key of a row. *)
Definition key (ktatrova gush chelka tik_id : string) : string :=
  ktatrova +:+ "_" +:+ gush +:+ "_" +:+ chelka +:+ "_" +:+ tik_id.

(** [add_next_key]: the row at [next_index] gets its key; no such row is
    an [IndexError] ([None]). *)
Definition add_next_key (h : t) : option t :=
  r ← rows h !! next_index h;
  Some (Holder (rows h)
               (<[key (ktatrova r) (ms_gush r) (ms_chelka r) (tik_id r) := next_index h]>
                  (key_to_index h))
               (S (next_index h)) (tik_ids_queued h)).

(** [add]: the row is appended, then keyed.  The flag is [false] when
    [add_next_key] raised; the row stays appended then. *)
Definition add (r : record) (h : t) : t * bool :=
  let h1 := set_rows (λ l, l ++ [r]) h in
  match add_next_key h1 with
  | Some h2 => (h2, true)
  | None => (h1, false)
  end.

Fixpoint extend (records : list record) (h : t) : t * bool :=
  match records with
  | [] => (h, true)
  | r :: records' =>
      let (h', ok) := add r h in
      if ok then extend records' h' else (h', false)
  end.

(** [to_csv]: the file is written only when there is a row; the result
    is the new content of the file. *)
Definition to_csv (h : t) (file : option (list record)) : option (list record) :=
  match rows h with
  | [] => file
  | _ => Some (rows h)
  end.

End CsvTikHolder.

(** ** The document record store *)

Module CsvDocHolder.

(** One row, in the order of [DOC_COLUMNS].  The page and row numbers
    are kept as their [str]. *)
Record record := Record {
  ktatrova : string;
  ms_gush : string;
  ms_chelka : string;
  multiple_gush_chelka : string;
  address : string;
  tik_id : string;
  page_number : string;
  row_number : string;
  date : string;
  type : string;
  request : string;
  permit : string;
  size : string;
  document : string
}.

(** The [document] column. *)
Definition documents (h : list record) : list string := document <$> h.

Definition add (r : record) (h : list record) : list record := h ++ [r].

Definition extend (other h : list record) : list record := h ++ other.

(** [to_csv]: the rows written to the file; a holder without rows
    writes one blank row. *)
Definition to_csv (h : list record) : list record :=
  match h with
  | [] => [Record "" "" "" "" "" "" "" "" "" "" "" "" "" ""]
  | _ => h
  end.

End CsvDocHolder.

(** ** The document source

    What the browser shows is given in advance, as a script: the sessions
    that [webdriver.Chrome] will open, and in each session the successive
    renderings of a case's document table.  Faults of the automation layer
    are part of the script. *)

Module Web.

(** What clicking the PDF cell does: the click raises, or a download
    starts and the file materializes after [delay] seconds (never, for
    [None]). *)
Inductive click_outcome :=
  | ClickRaises
  | ClickDownloads (delay : option Z).

(** A table row: [find_fault] says that looking up its cells raises;
    [cells] are the texts of its [td]s; [documentid] is the attribute of
    the PDF cell; [back_btn] says that the error page with a back link
    is shown once the row is handled. *)
Record Tr := {
  find_fault : bool;
  cells : list string;
  documentid : option string;
  click : click_outcome;
  back_btn : bool
}.

(** One rendering of the document table. *)
Record View := {
  web_count : Z;
  multiple_gush_chelka : string;
  address : string;
  trs : list Tr;
  next_page_btn : bool
}.

Record Session := MkSession {
  launch_fault : bool;
  tik_ids_found : list string;
  no_results_message : bool;
  views : list View
}.

Definition set_views (v : list View) (s : Session) : Session :=
  MkSession (launch_fault s) (tik_ids_found s) (no_results_message s) v.

End Web.

(** ** The shared state of one group

    [status_csv] is the group's ledger object, shared by all its jobs;
    [status_file] is the persisted ledger; [doc_csvs] are the per-case
    document tables on disk, by path; [files] are the downloaded
    documents, each with the time at which it materializes; [now] is the
    clock, in seconds. *)

Record World := MkWorld {
  status_csv : CsvTikHolder.t;
  status_file : option (list CsvTikHolder.record);
  doc_csvs : gmap string (list CsvDocHolder.record);
  files : gmap string Z;
  now : Z;
  sessions : list Web.Session
}.

Definition set_status_csv (v : CsvTikHolder.t) (w : World) : World :=
  MkWorld v (status_file w) (doc_csvs w) (files w) (now w) (sessions w).
Definition set_status_file (v : option (list CsvTikHolder.record)) (w : World) : World :=
  MkWorld (status_csv w) v (doc_csvs w) (files w) (now w) (sessions w).
Definition set_doc_csvs (v : gmap string (list CsvDocHolder.record)) (w : World) : World :=
  MkWorld (status_csv w) (status_file w) v (files w) (now w) (sessions w).
Definition set_files (v : gmap string Z) (w : World) : World :=
  MkWorld (status_csv w) (status_file w) (doc_csvs w) v (now w) (sessions w).
Definition set_now (v : Z) (w : World) : World :=
  MkWorld (status_csv w) (status_file w) (doc_csvs w) (files w) v (sessions w).
Definition set_sessions (v : list Web.Session) (w : World) : World :=
  MkWorld (status_csv w) (status_file w) (doc_csvs w) (files w) (now w) v.

Definition RESULTS_DIR : string := "output".

(** [os.path.join] (POSIX). *)
Definition ends_with_sep (a : string) : bool :=
  match String.length a with
  | O => false
  | S n => bool_decide (String.get n a = Some "/"%char)
  end.

Definition path_join (a b : string) : string :=
  if String.prefix "/" b then b
  else if bool_decide (a = "") || ends_with_sep a then a +:+ b
  else a +:+ "/" +:+ b.

(** [os.path.exists] for a document. *)
Definition path_exists (p : string) (w : World) : bool :=
  match files w !! p with
  | Some t => bool_decide (t <= now w)
  | None => false
  end.

(** The rest of [s] after the prefix [p]. *)
Fixpoint strip_prefix (p s : string) : option string :=
  match p, s with
  | EmptyString, _ => Some s
  | String a p', String b s' => if bool_decide (a = b) then strip_prefix p' s' else None
  | _, _ => None
  end.

(** A file name matched by the pattern [*.*]. *)
Definition matches_star_dot_star (name : string) : bool :=
  negb (String.prefix "." name) && contains "." name && negb (contains "/" name).

(** [glob.glob(f"{res_dir}/*.*")]: the files present in the directory. *)
Definition in_dir (res_dir : string) (w : World) (p : string) : bool :=
  path_exists p w &&
  match strip_prefix (path_join res_dir "") p with
  | Some name => matches_star_dot_star name
  | None => false
  end.

Definition glob_docs (res_dir : string) (w : World) : list string :=
  filter (λ p, in_dir res_dir w p = true) (map_to_list (files w)).*1.

(** ** [wait_for_doc]

    The regular expression [(\d+.?\d+)MB] is matched by backtracking, as
    [re.search] does: leftmost start, each [\d+] and the [.?] greedy.
    A [float] is an exact rational or infinity: a value is infinite from
    the point where binary64 rounds to [inf]; the rounding of finite
    values is not modelled. *)

Definition is_digit (c : ascii) : bool :=
  (48 <=? nat_of_ascii c)%nat && (nat_of_ascii c <=? 57)%nat.

Fixpoint digit_run (s : list ascii) : nat :=
  match s with
  | c :: s' => if is_digit c then S (digit_run s') else O
  | [] => O
  end.

Fixpoint first_some {A B} (f : A → option B) (l : list A) : option B :=
  match l with
  | [] => None
  | x :: l' => match f x with
               | Some y => Some y
               | None => first_some f l'
               end
  end.

(** The lengths a greedy [\d+] tries on a run of [n] digits: [n], ..., [1]. *)
Definition greedy (n : nat) : list nat := reverse (seq 1 n).

Definition starts_with_MB (s : list ascii) : bool :=
  match s with
  | "M"%char :: "B"%char :: _ => true
  | _ => false
  end.

(** [\d+MB] at the head of [s]: the number of digits taken. *)
Definition match_digits_MB (s : list ascii) : option nat :=
  first_some (λ n, if starts_with_MB (drop n s) then Some n else None)
             (greedy (digit_run s)).

(** [(\d+.?\d+)MB] at the head of [s]: the group. *)
Definition match_at (s : list ascii) : option (list ascii) :=
  first_some
    (λ n1,
       let s1 := drop n1 s in
       let with_dot :=
         match s1 with
         | c :: s2 =>
             if bool_decide (c = "010"%char) then None
             else n2 ← match_digits_MB s2; Some (take (n1 + 1 + n2)%nat s)
         | [] => None
         end in
       match with_dot with
       | Some g => Some g
       | None => n2 ← match_digits_MB s1; Some (take (n1 + n2)%nat s)
       end)
    (greedy (digit_run s)).

Fixpoint re_search (s : list ascii) : option (list ascii) :=
  match match_at s with
  | Some g => Some g
  | None => match s with
            | [] => None
            | _ :: s' => re_search s'
            end
  end.

Inductive float :=
  | Fin (q : Q)
  | Inf.

(** Binary64 rounds to [inf] from [2^1024 - 2^970] on. *)
Definition DBL_OVERFLOW : Q := inject_Z (2 ^ 1024 - 2 ^ 970).

Definition round (q : Q) : float :=
  if Qle_bool DBL_OVERFLOW q then Inf else Fin q.

Definition digits_val (ds : list ascii) : Z :=
  foldl (λ acc c, 10 * acc + (Z.of_nat (nat_of_ascii c) - 48)) 0 ds.

(** [float(g)] on a group of the expression: digits, or two digit runs
    around a point, an exponent mark or an underscore.  [None] is a
    [ValueError]. *)
Definition py_float (g : list ascii) : option float :=
  let d1 := take (digit_run g) g in
  match drop (digit_run g) g with
  | [] => Some (round (inject_Z (digits_val d1)))
  | c :: d2 =>
      if bool_decide (digit_run d2 = length d2 ∧ d2 ≠ []) then
        if bool_decide (c = "."%char) then
          Some (round (inject_Z (digits_val d1)
                       + inject_Z (digits_val d2) / inject_Z (10 ^ Z.of_nat (length d2)))%Q)
        else if bool_decide (c = "e"%char ∨ c = "E"%char) then
          Some (round (inject_Z (digits_val d1 * 10 ^ digits_val d2)))
        else if bool_decide (c = "_"%char) then
          Some (round (inject_Z (digits_val (d1 ++ d2))))
        else None
      else None
  end.

Definition float_gt_1 (d : float) : bool :=
  match d with
  | Fin q => negb (Qle_bool q 1)
  | Inf => true
  end.

(** [d / 10 + 1]. *)
Definition float_tenth_plus_1 (d : float) : float :=
  match d with
  | Fin q => match round (q / 10)%Q with
             | Fin q' => round (q' + 1)%Q
             | Inf => Inf
             end
  | Inf => Inf
  end.

(** [WAIT_TIME * d]. *)
Definition float_times_WAIT_TIME (d : float) : float :=
  match d with
  | Fin q => round (inject_Z WAIT_TIME * q)%Q
  | Inf => Inf
  end.

(** [timer < b]. *)
Definition int_lt_float (timer : Z) (b : float) : bool :=
  match b with
  | Fin q => negb (Qle_bool q (inject_Z timer))
  | Inf => true
  end.

(** The factor [doubler]; [None] is the [ValueError] of [float]. *)
Definition doubler (size : string) : option float :=
  match re_search (list_ascii_of_string size) with
  | Some g => d ← py_float g;
              Some (if float_gt_1 d then float_tenth_plus_1 d else d)
  | None => Some (Fin 1)
  end.

(** [time.sleep]. *)
Definition sleep (seconds : Z) (w : World) : World := set_now (now w + seconds) w.

(** The polling loop, with the number of iterations it may still make;
    [None] when they are used up.  The result carries [timer]. *)
Fixpoint wait_loop (fuel : nat) (timer : Z) (bound : float) (doc_path : string)
    (w : World) : option (Z * World) :=
  if int_lt_float timer bound && negb (path_exists doc_path w) then
    match fuel with
    | O => None
    | S fuel' => wait_loop fuel' (timer + 10) bound doc_path (sleep 10 w)
    end
  else Some (timer, w).

Definition wait_for_doc (fuel : nat) (doc_path size : string) (w : World)
    : option (res Z * World) :=
  match doubler size with
  | None => Some (Raise ValueError, w)
  | Some d =>
      match wait_loop fuel 0 (float_times_WAIT_TIME d) doc_path w with
      | Some (timer, w') => Some (Ok timer, w')
      | None => None
      end
  end.

(** A number of iterations within which the loop ends, when there is one:
    by the bound, or by the time the file materializes. *)
Definition wait_fuel (bound : float) (doc_path : string) (w : World) : option nat :=
  match bound with
  | Fin q => Some (Z.to_nat (Qceiling q / 10 + 1))
  | Inf => match files w !! doc_path with
           | Some t => Some (Z.to_nat ((t - now w) / 10 + 1))
           | None => None
           end
  end.

(** [wait_for_doc] as the callers see it: it returns, raises or hangs. *)
Definition wait_for_doc_call (doc_path size : string) (w : World) : res unit * World :=
  match doubler size with
  | None => (Raise ValueError, w)
  | Some d =>
      match wait_fuel (float_times_WAIT_TIME d) doc_path w with
      | Some fuel =>
          match wait_loop fuel 0 (float_times_WAIT_TIME d) doc_path w with
          | Some (_, w') => (Ok (), w')
          | None => (Hang, w)
          end
      | None => (Hang, w)
      end
  end.

(** ** The crawl job *)

Module GushChelka.

Record t := Job {
  ktatrova : string;
  gush : string;
  chelka : string;
  driver : option Web.Session;
  status_index : Z;
  status_key : string;
  no_results : string;
  tik_id : string;
  tik_ids : list string;
  tik_indexes : list nat;
  res_csv : list CsvDocHolder.record;
  res_dir : string;
  res_csv_path : string;
  multiple_gush_chelka : string;
  address : string;
  docs_in_web : Z;
  docs_in_csv : Z;
  docs_in_directory : Z;
  current_page : nat;
  current_row : nat;
  start_idx : nat;
  has_queue : bool
}.

Definition set_driver (v : option Web.Session) (j : t) : t :=
  Job (ktatrova j) (gush j) (chelka j) v (status_index j) (status_key j)
    (no_results j) (tik_id j) (tik_ids j) (tik_indexes j) (res_csv j) (res_dir j)
    (res_csv_path j) (multiple_gush_chelka j) (address j) (docs_in_web j)
    (docs_in_csv j) (docs_in_directory j) (current_page j) (current_row j)
    (start_idx j) (has_queue j).
Definition set_status_index (v : Z) (j : t) : t :=
  Job (ktatrova j) (gush j) (chelka j) (driver j) v (status_key j) (no_results j)
    (tik_id j) (tik_ids j) (tik_indexes j) (res_csv j) (res_dir j) (res_csv_path j)
    (multiple_gush_chelka j) (address j) (docs_in_web j) (docs_in_csv j)
    (docs_in_directory j) (current_page j) (current_row j) (start_idx j) (has_queue j).
Definition set_status_key (v : string) (j : t) : t :=
  Job (ktatrova j) (gush j) (chelka j) (driver j) (status_index j) v (no_results j)
    (tik_id j) (tik_ids j) (tik_indexes j) (res_csv j) (res_dir j) (res_csv_path j)
    (multiple_gush_chelka j) (address j) (docs_in_web j) (docs_in_csv j)
    (docs_in_directory j) (current_page j) (current_row j) (start_idx j) (has_queue j).
Definition set_no_results (v : string) (j : t) : t :=
  Job (ktatrova j) (gush j) (chelka j) (driver j) (status_index j) (status_key j) v
    (tik_id j) (tik_ids j) (tik_indexes j) (res_csv j) (res_dir j) (res_csv_path j)
    (multiple_gush_chelka j) (address j) (docs_in_web j) (docs_in_csv j)
    (docs_in_directory j) (current_page j) (current_row j) (start_idx j) (has_queue j).
Definition set_tik_id (v : string) (j : t) : t :=
  Job (ktatrova j) (gush j) (chelka j) (driver j) (status_index j) (status_key j)
    (no_results j) v (tik_ids j) (tik_indexes j) (res_csv j) (res_dir j)
    (res_csv_path j) (multiple_gush_chelka j) (address j) (docs_in_web j)
    (docs_in_csv j) (docs_in_directory j) (current_page j) (current_row j)
    (start_idx j) (has_queue j).
Definition set_tik_ids (v : list string) (j : t) : t :=
  Job (ktatrova j) (gush j) (chelka j) (driver j) (status_index j) (status_key j)
    (no_results j) (tik_id j) v (tik_indexes j) (res_csv j) (res_dir j)
    (res_csv_path j) (multiple_gush_chelka j) (address j) (docs_in_web j)
    (docs_in_csv j) (docs_in_directory j) (current_page j) (current_row j)
    (start_idx j) (has_queue j).
Definition set_tik_indexes (v : list nat) (j : t) : t :=
  Job (ktatrova j) (gush j) (chelka j) (driver j) (status_index j) (status_key j)
    (no_results j) (tik_id j) (tik_ids j) v (res_csv j) (res_dir j) (res_csv_path j)
    (multiple_gush_chelka j) (address j) (docs_in_web j) (docs_in_csv j)
    (docs_in_directory j) (current_page j) (current_row j) (start_idx j) (has_queue j).
Definition set_res_csv (v : list CsvDocHolder.record) (j : t) : t :=
  Job (ktatrova j) (gush j) (chelka j) (driver j) (status_index j) (status_key j)
    (no_results j) (tik_id j) (tik_ids j) (tik_indexes j) v (res_dir j)
    (res_csv_path j) (multiple_gush_chelka j) (address j) (docs_in_web j)
    (docs_in_csv j) (docs_in_directory j) (current_page j) (current_row j)
    (start_idx j) (has_queue j).
Definition set_res_dir (v : string) (j : t) : t :=
  Job (ktatrova j) (gush j) (chelka j) (driver j) (status_index j) (status_key j)
    (no_results j) (tik_id j) (tik_ids j) (tik_indexes j) (res_csv j) v
    (res_csv_path j) (multiple_gush_chelka j) (address j) (docs_in_web j)
    (docs_in_csv j) (docs_in_directory j) (current_page j) (current_row j)
    (start_idx j) (has_queue j).
Definition set_res_csv_path (v : string) (j : t) : t :=
  Job (ktatrova j) (gush j) (chelka j) (driver j) (status_index j) (status_key j)
    (no_results j) (tik_id j) (tik_ids j) (tik_indexes j) (res_csv j) (res_dir j) v
    (multiple_gush_chelka j) (address j) (docs_in_web j) (docs_in_csv j)
    (docs_in_directory j) (current_page j) (current_row j) (start_idx j) (has_queue j).
Definition set_multiple_gush_chelka (v : string) (j : t) : t :=
  Job (ktatrova j) (gush j) (chelka j) (driver j) (status_index j) (status_key j)
    (no_results j) (tik_id j) (tik_ids j) (tik_indexes j) (res_csv j) (res_dir j)
    (res_csv_path j) v (address j) (docs_in_web j) (docs_in_csv j)
    (docs_in_directory j) (current_page j) (current_row j) (start_idx j) (has_queue j).
Definition set_address (v : string) (j : t) : t :=
  Job (ktatrova j) (gush j) (chelka j) (driver j) (status_index j) (status_key j)
    (no_results j) (tik_id j) (tik_ids j) (tik_indexes j) (res_csv j) (res_dir j)
    (res_csv_path j) (multiple_gush_chelka j) v (docs_in_web j) (docs_in_csv j)
    (docs_in_directory j) (current_page j) (current_row j) (start_idx j) (has_queue j).
Definition set_docs_in_web (v : Z) (j : t) : t :=
  Job (ktatrova j) (gush j) (chelka j) (driver j) (status_index j) (status_key j)
    (no_results j) (tik_id j) (tik_ids j) (tik_indexes j) (res_csv j) (res_dir j)
    (res_csv_path j) (multiple_gush_chelka j) (address j) v (docs_in_csv j)
    (docs_in_directory j) (current_page j) (current_row j) (start_idx j) (has_queue j).
Definition set_docs_in_csv (v : Z) (j : t) : t :=
  Job (ktatrova j) (gush j) (chelka j) (driver j) (status_index j) (status_key j)
    (no_results j) (tik_id j) (tik_ids j) (tik_indexes j) (res_csv j) (res_dir j)
    (res_csv_path j) (multiple_gush_chelka j) (address j) (docs_in_web j) v
    (docs_in_directory j) (current_page j) (current_row j) (start_idx j) (has_queue j).
Definition set_current_page (v : nat) (j : t) : t :=
  Job (ktatrova j) (gush j) (chelka j) (driver j) (status_index j) (status_key j)
    (no_results j) (tik_id j) (tik_ids j) (tik_indexes j) (res_csv j) (res_dir j)
    (res_csv_path j) (multiple_gush_chelka j) (address j) (docs_in_web j)
    (docs_in_csv j) (docs_in_directory j) v (current_row j) (start_idx j)
    (has_queue j).
Definition set_current_row (v : nat) (j : t) : t :=
  Job (ktatrova j) (gush j) (chelka j) (driver j) (status_index j) (status_key j)
    (no_results j) (tik_id j) (tik_ids j) (tik_indexes j) (res_csv j) (res_dir j)
    (res_csv_path j) (multiple_gush_chelka j) (address j) (docs_in_web j)
    (docs_in_csv j) (docs_in_directory j) (current_page j) v (start_idx j)
    (has_queue j).
Definition set_start_idx (v : nat) (j : t) : t :=
  Job (ktatrova j) (gush j) (chelka j) (driver j) (status_index j) (status_key j)
    (no_results j) (tik_id j) (tik_ids j) (tik_indexes j) (res_csv j) (res_dir j)
    (res_csv_path j) (multiple_gush_chelka j) (address j) (docs_in_web j)
    (docs_in_csv j) (docs_in_directory j) (current_page j) (current_row j) v
    (has_queue j).
Definition set_has_queue (v : bool) (j : t) : t :=
  Job (ktatrova j) (gush j) (chelka j) (driver j) (status_index j) (status_key j)
    (no_results j) (tik_id j) (tik_ids j) (tik_indexes j) (res_csv j) (res_dir j)
    (res_csv_path j) (multiple_gush_chelka j) (address j) (docs_in_web j)
    (docs_in_csv j) (docs_in_directory j) (current_page j) (current_row j)
    (start_idx j) v.

(** [__init__]. *)
Definition init (ktatrova gush chelka : string) : t :=
  Job ktatrova gush chelka None (-1) "" "" "" [] [] [] "" "" "" "" 0 0 0 0%nat 0%nat 0%nat
    false.

(** A method runs on the job [self], the shared state of its group and
    the queue; it returns, raises or hangs, and leaves the state it has
    reached. *)
Record state := State {
  self : t;
  world : World;
  queue : list t
}.

Definition M (A : Type) : Type := state → res A * state.

Definition ret {A} (a : A) : M A := λ s, (Ok a, s).

Definition bind {A B} (m : M A) (k : A → M B) : M B := λ s,
  match m s with
  | (Ok a, s') => k a s'
  | (Raise e, s') => (Raise e, s')
  | (Hang, s') => (Hang, s')
  end.

#[global] Instance M_ret : MRet M := @ret.
#[global] Instance M_bind : MBind M := λ A B k m, bind m k.

Definition raise {A} (e : exn) : M A := λ s, (Raise e, s).

(** A method keeps the relation [R] between the state it starts from
    and the state it leaves, whatever its outcome. *)
Definition preserves (R : state → state → Prop) {A} (m : M A) : Prop :=
  ∀ s, R s (m s).2.

Definition get_self : M t := λ s, (Ok (self s), s).
Definition get_world : M World := λ s, (Ok (world s), s).
Definition modify_self (f : t → t) : M unit := λ s,
  (Ok (), State (f (self s)) (world s) (queue s)).
Definition modify_world (f : World → World) : M unit := λ s,
  (Ok (), State (self s) (f (world s)) (queue s)).
Definition queue_put (j : t) : M unit := λ s,
  (Ok (), State (self s) (world s) (queue s ++ [j])).

(** [try: body finally: fin]. *)
Definition finally {A} (body : M A) (fin : M unit) : M A := λ s,
  match body s with
  | (Hang, s') => (Hang, s')
  | (r, s') => match fin s' with
               | (Ok _, s'') => (r, s'')
               | (Raise e, s'') => (Raise e, s'')
               | (Hang, s'') => (Hang, s'')
               end
  end.

(** [self.status_csv.<column>[i] = ...]. *)
Definition ledger_alter (f : CsvTikHolder.record → CsvTikHolder.record) (i : Z) : M unit :=
  w ← get_world;
  match py_alter f i (CsvTikHolder.rows (status_csv w)) with
  | Some rows' =>
      modify_world (λ w, set_status_csv (CsvTikHolder.set_rows (λ _, rows') (status_csv w)) w)
  | None => raise IndexError
  end.

(** [self.status_csv.to_csv(self.status_path)]. *)
Definition flush (w : World) : World :=
  set_status_file (CsvTikHolder.to_csv (status_csv w) (status_file w)) w.

(** [self.res_csv.to_csv(self.res_csv_path)]. *)
Definition res_csv_to_csv : M unit :=
  j ← get_self;
  if decide (res_csv_path j = "") then ret ()
  else modify_world (λ w, set_doc_csvs (<[res_csv_path j := CsvDocHolder.to_csv (res_csv j)]>
                                          (doc_csvs w)) w).

(** [update_fields()] on a job; with [only_prefix] the method only
    rebuilds the log prefix. *)
Definition update_fields_of (w : World) (j : t) : t :=
  let j := set_res_dir (path_join (path_join RESULTS_DIR (ktatrova j)) (tik_id j)) j in
  if decide (tik_id j = "") then j
  else
    let j := set_res_csv_path
               (path_join (res_dir j)
                  (FILE_PREFIX +:+ "TatRova" +:+ ktatrova j +:+ "_" +:+ tik_id j +:+ ".csv")) j in
    let j := set_status_key
               (CsvTikHolder.key (ktatrova j) (gush j) (chelka j) (tik_id j)) j in
    match CsvTikHolder.key_to_index (status_csv w) !! status_key j with
    | Some i => set_status_index (Z.of_nat i) j
    | None => j
    end.

Definition update_fields : M unit :=
  w ← get_world; modify_self (update_fields_of w).

(** The tik is added to the active set of the group. *)
Definition claim (tik_id : string) (w : World) : World :=
  set_status_csv
    (CsvTikHolder.Holder (CsvTikHolder.rows (status_csv w))
       (CsvTikHolder.key_to_index (status_csv w))
       (CsvTikHolder.next_index (status_csv w))
       ({[tik_id]} ∪ CsvTikHolder.tik_ids_queued (status_csv w))) w.

Definition is_active : M bool :=
  j ← get_self; w ← get_world;
  if decide (tik_id j ∈ CsvTikHolder.tik_ids_queued (status_csv w)) then ret true
  else
    (* Activate *)
    modify_world (claim (tik_id j));;
    ret false.

(** Add tiks of gush-chelka to queue starting with the second one.  A
    job that was not given the queue has none to put a tik in: an
    [AttributeError]. *)
Definition put_tiks_in_queue : M unit :=
  j ← get_self; w ← get_world;
  let start := if decide (tik_id j = "") then 0%nat else 1%nat in
  foldr (λ tik_id k,
           (if has_queue j
            then queue_put (update_fields_of w
                              (set_tik_id tik_id (init (ktatrova j) (gush j) (chelka j))))
            else raise AttributeError);;
           k)
        (ret ()) (drop start (tik_ids j)).

(** The indexes of the rows of the parcel. *)
Definition parcel_indexes (j : t) (rows : list CsvTikHolder.record) : list nat :=
  (filter (λ ir, ktatrova j = CsvTikHolder.ktatrova ir.2 ∧
                 gush j = CsvTikHolder.ms_gush ir.2 ∧
                 chelka j = CsvTikHolder.ms_chelka ir.2) (enumerate rows)).*1.

Definition get_indexes_from_status : M unit :=
  j ← get_self; w ← get_world;
  let found :=
    if decide (tik_id j = "") then None
    else CsvTikHolder.key_to_index (status_csv w)
           !! CsvTikHolder.key (ktatrova j) (gush j) (chelka j) (tik_id j) in
  match found with
  | Some i => modify_self (set_tik_indexes (tik_indexes j ++ [i]))
  | None =>
      modify_self
        (set_tik_indexes (tik_indexes j ++ parcel_indexes j (CsvTikHolder.rows (status_csv w))))
  end.

Definition search_no_results_message : M unit :=
  j ← get_self;
  match driver j with
  | None => raise AttributeError
  | Some d => if Web.no_results_message d then modify_self (set_no_results NO_RESULTS)
              else ret ()
  end.

(** [navigate_to_gush_chelka] and [get_tik_ids]: the search is run and
    the case ids it shows are read. *)
Definition get_tik_ids : M unit :=
  j ← get_self;
  match driver j with
  | None => raise AttributeError
  | Some d =>
      modify_self (set_tik_ids (Web.tik_ids_found d));;
      if decide (Web.tik_ids_found d = []) then search_no_results_message else ret ()
  end.

(** [webdriver.Chrome] opens the next session of the script. *)
Definition launch_and_accept_policy : M unit :=
  w ← get_world;
  match sessions w with
  | [] => raise WebDriverException
  | d :: rest =>
      modify_world (set_sessions rest);;
      if Web.launch_fault d then raise WebDriverException
      else modify_self (set_driver (Some d))
  end.

(** [if self.driver: self.driver.quit()]; a driver that was quit is not
    used again, every block launches its own. *)
Definition quit : M unit := modify_self (set_driver None).

Definition add_status_records : M unit :=
  j ← get_self;
  let records :=
    match tik_ids j with
    | [] => [CsvTikHolder.create_status_record (ktatrova j) (gush j) (chelka j) ""
               COMPLETED NO_RESULTS 0 0 0 0 0]
    | _ => (λ tik_id, CsvTikHolder.create_status_record (ktatrova j) (gush j) (chelka j)
                        tik_id "" "" 0 0 0 0 0) <$> tik_ids j
    end in
  w ← get_world;
  let (h, ok) := CsvTikHolder.extend records (status_csv w) in
  modify_world (set_status_csv h);;
  if ok then modify_world flush else raise IndexError.

Definition create_record (j : t) (date doc_type request permit size doc_path : string)
    : CsvDocHolder.record :=
  CsvDocHolder.Record (ktatrova j) (gush j) (chelka j) (multiple_gush_chelka j) (address j)
    (tik_id j) (str (Z.of_nat (current_page j))) (str (Z.of_nat (current_row j)))
    date doc_type request permit size doc_path.

(** [td.click()] on the PDF cell. *)
Definition start_download (doc_path : string) (delay : Z) (w : World) : World :=
  let t := now w + Z.max 0 delay in
  set_files (<[doc_path := match files w !! doc_path with
                           | Some t' => Z.min t' t
                           | None => t
                           end]> (files w)) w.

Definition td_click (tr : Web.Tr) (doc_path : string) : M unit :=
  match Web.click tr with
  | Web.ClickRaises => raise WebDriverException
  | Web.ClickDownloads None => ret ()
  | Web.ClickDownloads (Some delay) => modify_world (start_download doc_path delay)
  end.

Definition wait_for_doc (doc_path size : string) : M unit := λ s,
  let (r, w) := wait_for_doc_call doc_path size (world s) in
  (r, State (self s) w (queue s)).

(** The loop over the cells reaches the PDF cell only in a row of more
    than [PDFBTN] cells; the other rows are passed over. *)
Definition handle_table_row (tr : Web.Tr) : M unit :=
  let cell i := default "" (Web.cells tr !! i) in
  match Web.cells tr !! PDFBTN with
  | None => ret ()
  | Some _ =>
      match Web.documentid tr with
      | None => raise TypeError
      | Some doc_file =>
          j ← get_self;
          let doc_path := path_join (res_dir j) doc_file in
          let record := create_record j (cell DATE) (cell TYPE) (cell REQUEST)
                          (cell PERMIT) (cell SIZE) doc_path in
          (* Update csv *)
          modify_self (λ j, set_docs_in_csv (docs_in_csv j + 1)
                              (set_res_csv (CsvDocHolder.add record (res_csv j)) j));;
          (* Update status with lock *)
          j ← get_self;
          ledger_alter (CsvTikHolder.set_docs_in_csv (str (docs_in_csv j))) (status_index j);;
          (* Download if not exists *)
          w ← get_world;
          if path_exists doc_path w then ret ()
          else
            td_click tr doc_path;;
            if WAIT_ALL then wait_for_doc doc_path (cell SIZE)
            else if decide (docs_in_csv j = docs_in_web j) then wait_for_doc doc_path "0MB"
            else ret ()
      end
  end.

(** The loop over the rows of a page.  The result tells whether the
    back link was met, which ends the loop. *)
Fixpoint handle_rows (trs : list Web.Tr) : M bool :=
  match trs with
  | [] => ret false
  | tr :: trs' =>
      modify_self (λ j, set_current_row (S (current_row j)) j);;
      (if Web.find_fault tr then raise WebDriverException else ret ());;
      handle_table_row tr;;
      if Web.back_btn tr then
        modify_world (sleep 5);;
        modify_self (λ j, set_start_idx (current_row j) j);;
        ret true
      else handle_rows trs'
  end.

(** [handle_table] on the renderings still to come: each call of the
    method reads one; when none is left the driver raises. *)
Fixpoint handle_table_views (views : list Web.View) : M unit :=
  match views with
  | [] => raise WebDriverException
  | v :: views' =>
      modify_self (λ j, set_driver (Web.set_views views' <$> driver j) j);;
      j ← get_self;
      (* Get number of docs and multiple gush chelka field from web *)
      (if decide (current_page j = 1%nat ∧ start_idx j = 0%nat) then
         modify_self (set_docs_in_web (Web.web_count v));;
         ledger_alter (CsvTikHolder.set_docs_in_web (str (Web.web_count v))) (status_index j);;
         modify_world flush;;
         modify_self (λ j, set_address (Web.address v)
                             (set_multiple_gush_chelka (Web.multiple_gush_chelka v) j))
       else ret ());;
      (* Iterate over table rows *)
      modify_self (λ j, set_current_row (start_idx j) j);;
      back ← handle_rows (drop (start_idx j) (Web.trs v));
      if back : bool then handle_table_views views'
      else
        j ← get_self;
        (* Stop endless recursion *)
        if decide (docs_in_csv j > docs_in_web j) then ret ()
        else if Web.next_page_btn v then
          (* Handle next page recursively *)
          modify_self (λ j, set_start_idx 0%nat (set_current_page (S (current_page j)) j));;
          update_fields;;
          modify_world flush;;
          handle_table_views views'
        else ret ()
  end.

Definition handle_table : M unit :=
  j ← get_self;
  match driver j with
  | None => raise AttributeError
  | Some d => handle_table_views (Web.views d)
  end.

(** The per-case completion rule. *)
Definition completion_rule (j : t) (filtered_dir_docs docs_in_csv_not_in_dir : list string)
    : bool :=
  bool_decide (0 < docs_in_csv j) &&
  bool_decide (docs_in_csv j = docs_in_web j) &&
  bool_decide (docs_in_web j <= Z.of_nat (length filtered_dir_docs)) &&
  bool_decide (docs_in_csv_not_in_dir = []).

(** The body of the loop of [update_status_csv], on the row it visits. *)
Definition update_row (j : t)
    (filtered_dir_docs docs_in_dir_not_in_csv docs_in_csv_not_in_dir : list string)
    (r : CsvTikHolder.record) : CsvTikHolder.record :=
  let r := if bool_decide (CsvTikHolder.docs_in_web r = "0") && bool_decide (docs_in_web j > 0)
           then CsvTikHolder.set_docs_in_web (str (docs_in_web j)) r else r in
  let r := CsvTikHolder.set_docs_in_csv (str (docs_in_csv j)) r in
  let r := CsvTikHolder.set_docs_in_directory
             (str (Z.of_nat (length filtered_dir_docs))) r in
  let r := CsvTikHolder.set_docs_in_dir_not_in_csv
             (str (Z.of_nat (length docs_in_dir_not_in_csv))) r in
  let r := CsvTikHolder.set_docs_in_csv_not_in_dir
             (str (Z.of_nat (length docs_in_csv_not_in_dir))) r in
  if completion_rule j filtered_dir_docs docs_in_csv_not_in_dir
  then CsvTikHolder.set_status COMPLETED r
  else if decide (CsvTikHolder.status r ≠ COMPLETED)
       then CsvTikHolder.set_status MISMATCH r
       else r.

(** The indexes of all tiks with the same tik_id. *)
Definition duplicated_tiks (j : t) (rows : list CsvTikHolder.record) : list nat :=
  (filter (λ ir, CsvTikHolder.tik_id ir.2 = tik_id j) (enumerate rows)).*1.

Definition filtered_dir_docs (j : t) (w : World) : list string :=
  filter (λ x, contains FILE_PREFIX x = false) (glob_docs (res_dir j) w).

Definition docs_in_dir_not_in_csv (j : t) (w : World) : list string :=
  filter (λ x, x ∉ CsvDocHolder.documents (res_csv j)) (filtered_dir_docs j w).

Definition docs_in_csv_not_in_dir (j : t) (w : World) : list string :=
  filter (λ x, x ∉ filtered_dir_docs j w) (CsvDocHolder.documents (res_csv j)).

(** [update_row] with the lists that [update_status_csv] computes. *)
Definition updated_row (j : t) (w : World) : CsvTikHolder.record → CsvTikHolder.record :=
  update_row j (filtered_dir_docs j w) (docs_in_dir_not_in_csv j w)
    (docs_in_csv_not_in_dir j w).

Definition update_status_csv : M unit :=
  j ← get_self; w ← get_world;
  (* Update status csv for all tiks with same tik_id *)
  modify_world (λ w,
    set_status_csv
      (CsvTikHolder.set_rows
         (λ rows, foldl (λ rows i,
                           alter (updated_row j w) i rows)
                        rows (duplicated_tiks j rows))
         (status_csv w)) w);;
  (* Save status *)
  modify_world flush.

(** [list(set(l))]; the order of a set is not specified, the model keeps
    the order of the last occurrences. *)
Definition list_of_set (l : list string) : list string := remove_dups l.

(** The ids of the uncompleted rows among [tik_indexes]; a missing row
    is an [IndexError]. *)
Fixpoint uncompleted (rows : list CsvTikHolder.record) (indexes : list nat)
    : option (list string) :=
  match indexes with
  | [] => Some []
  | i :: indexes' =>
      r ← rows !! i;
      rest ← uncompleted rows indexes';
      Some (if decide (CsvTikHolder.status r ≠ COMPLETED)
            then CsvTikHolder.tik_id r :: rest else rest)
  end.

(** The block under [if not self.tik_id]: the tiks of the parcel are
    found and added to the status.  The result is [false] when the
    method returns there, for a parcel without results. *)
Definition discover_tiks : M bool :=
  get_tik_ids;;
  (* Add tiks to status; mark all gush-chelka with no results as completed *)
  add_status_records;;
  j ← get_self;
  ret (bool_decide (tik_ids j ≠ [])).

(** The block under [if self.tik_id]. *)
Definition process_tik : M unit :=
  search_no_results_message;;
  j ← get_self;
  (if decide (no_results j = NO_RESULTS) then
     ledger_alter (CsvTikHolder.set_status COMPLETED) (status_index j);;
     ledger_alter (CsvTikHolder.set_no_results NO_RESULTS) (status_index j)
   else
     modify_self (set_current_page 1%nat);;
     handle_table;;
     res_csv_to_csv);;
  update_status_csv.

(** The part of [download_docs_and_get_data] under its last [try]. *)
Definition fetch : M unit :=
  launch_and_accept_policy;;
  j ← get_self;
  (* No tik id. go get it *)
  proceed ← (if decide (tik_id j = "") then discover_tiks else ret true);
  if proceed : bool then
    (* Put in queue second tik and up *)
    j ← get_self;
    (if decide (tik_ids j ≠ []) then put_tiks_in_queue else ret ());;
    if decide (tik_id j ≠ "") then process_tik else ret ()
  else ret ().

(** The block under [if self.start_idx > 0], for a job that was put
    back in the queue. *)
Definition resume : M unit :=
  finally (launch_and_accept_policy;;
           handle_table;;
           res_csv_to_csv;;
           update_status_csv)
          quit.

Definition download_docs_and_get_data : M unit :=
  j ← get_self;
  (* Check for repeated Tiks *)
  (if decide (0 < start_idx j)%nat then resume else ret ());;
  (* Find Gush-Chelka/Tik in status *)
  get_indexes_from_status;;
  j ← get_self; w ← get_world;
  match uncompleted (CsvTikHolder.rows (status_csv w)) (tik_indexes j) with
  | None => raise IndexError
  | Some l =>
      let tik_ids := list_of_set l in
      if decide (tik_indexes j ≠ [] ∧ tik_ids = []) then ret ()
      else
        (if decide (tik_ids ≠ []) then
           modify_self (λ j, set_tik_id (default "" (head tik_ids)) (set_tik_ids tik_ids j));;
           update_fields
         else ret ());;
        j ← get_self;
        active ← (if decide (tik_id j ≠ "") then is_active else ret false);
        if active : bool then ret ()
        else finally fetch quit
  end.

(** The job that [activate_threads] puts in the queue for a parcel. *)
Definition parcel_job (w : World) (ktatrova gush chelka : string) : t :=
  update_fields_of w (set_has_queue true (init ktatrova gush chelka)).

(** *** Vocabulary of the properties *)

(** The tiks claimed in a state, and the states between which claims
    are only added. *)
Definition claimed (s : state) : gset string :=
  CsvTikHolder.tik_ids_queued (status_csv (world s)).

Definition claims_grow (s s' : state) : Prop := claimed s ⊆ claimed s'.

(** The states between which the ledger keeps its keys and the tik of
    each of its rows, and the job keeps its tik. *)
Definition same_tiks (s s' : state) : Prop :=
  CsvTikHolder.key_to_index (status_csv (world s'))
    = CsvTikHolder.key_to_index (status_csv (world s)) ∧
  CsvTikHolder.tik_id <$> CsvTikHolder.rows (status_csv (world s'))
    = CsvTikHolder.tik_id <$> CsvTikHolder.rows (status_csv (world s)) ∧
  tik_id (self s') = tik_id (self s).

(** The states between which the job is the same. *)
Definition same_self (s s' : state) : Prop := self s' = self s.

(** The recorded count is within the declared count and the rows read
    on the current page. *)
Definition within_page (j : t) : Prop :=
  docs_in_csv j <= docs_in_web j + Z.of_nat (current_row j).

(** What holds of the job when [handle_table] is entered: the recorded
    count, less the rows that the cursor skips, is within the declared
    count; the page counter has started; and nothing is recorded yet
    when the declared count is about to be read. *)
Definition at_page_start (j : t) : Prop :=
  docs_in_csv j - Z.of_nat (start_idx j) <= docs_in_web j ∧
  within_page j ∧
  (1 <= current_page j)%nat ∧
  (current_page j = 1%nat → start_idx j = 0%nat → docs_in_csv j = 0).

(** The job that has recorded one more document. *)
Definition recorded (record : CsvDocHolder.record) (j : t) : t :=
  set_docs_in_csv (docs_in_csv j + 1) (set_res_csv (CsvDocHolder.add record (res_csv j)) j).

(** The persisted ledger is the ledger in memory.  (A ledger without
    rows is never written.) *)
Definition persisted (w : World) : Prop :=
  CsvTikHolder.rows (status_csv w) ≠ [] →
  status_file w = Some (CsvTikHolder.rows (status_csv w)).

(** A method that returns leaves the ledger persisted. *)
Definition flushes {A} (m : M A) : Prop :=
  ∀ s, (∃ a, (m s).1 = Ok a) → persisted (world (m s).2).

(** A method that returns leaves the ledger persisted if it was. *)
Definition keeps_flushed {A} (m : M A) : Prop :=
  ∀ s, persisted (world s) → (∃ a, (m s).1 = Ok a) → persisted (world (m s).2).

(** The job of a tik, fresh from the queue, as it stands before the
    claim check: its row is found and its fields are set again. *)
Definition bound (i : nat) (w : World) (j : t) : t :=
  update_fields_of w (set_tik_id (tik_id j) (set_tik_ids [tik_id j] (set_tik_indexes [i] j))).

End GushChelka.

(** ** The download worker *)

Module DownloadWorker.
Import GushChelka.

(** The [except] clause of [run]. *)
Definition on_fault : M unit :=
  res_csv_to_csv;;
  update_status_csv;;
  j ← get_self;
  if decide (docs_in_csv j < docs_in_web j) then
    modify_self (set_start_idx (current_row j));;
    j ← get_self;
    queue_put j
  else ret ().

(** The body of the loop of [run], the job being taken from the queue. *)
Definition run_job : M unit := λ s,
  match download_docs_and_get_data s with
  | (Raise _, s') => on_fault s'
  | r => r
  end.

(** [run], for at most [fuel] jobs.  An empty queue blocks the worker;
    a fault in the [except] clause ends it; a job that hangs holds it. *)
Fixpoint run (fuel : nat) (w : World) (queue : list t) : res unit * World * list t :=
  match fuel, queue with
  | S fuel', j :: queue' =>
      match run_job (State j w queue') with
      | (Ok _, s) => run fuel' (world s) (GushChelka.queue s)
      | (r, s) => (r, world s, GushChelka.queue s)
      end
  | _, _ => (Ok (), w, queue)
  end.



End DownloadWorker.

(** ** The reporter *)

(** [int(s)], for the numerals that [str] writes. *)
Definition py_int (s : string) : option Z := Z.of_int <$> NilZero.int_of_string s.

Module Reporter.

#[local] Unset Elimination Schemes.
Inductive t := Rep {
  ktatrova : option string;
  (** the [ktatrova] column of the input csv *)
  input_csv : option (list string);
  status_csv : option (list CsvTikHolder.record);
  (** tiks info *)
  gush_chelka_received : Z;
  tiks_received : Z;
  (** Tiks that completed *)
  completed : list GushChelka.t;
  mismatches : list GushChelka.t;
  waiting : list GushChelka.t;
  (** Docs count *)
  docs_in_csv_count : Z;
  docs_in_dir_count : Z;
  docs_in_web_count : Z;
  (** Docs info taken from merged csv for report *)
  gushes : list string;
  chelkas : list string;
  ids : list string;
  pages : list string;
  row_nums : list string;
  docs : list string;
  (** Mismatches *)
  in_csv_not_in_dir : list (nat * string);
  in_dir_not_in_csv : list (nat * string);
  (** For merged report *)
  reporters : list t
}.
#[local] Set Elimination Schemes.

(** [__init__]. *)
Definition init (ktatrova : option string) (input_csv : option (list string))
    (status_csv : option (list CsvTikHolder.record)) : t :=
  Rep ktatrova input_csv status_csv 0 0 [] [] [] 0 0 0 [] [] [] [] [] [] [] [] [].

(** Sum web count for unique tik_ids.  The flag is [false] when [int]
    raised its [ValueError]; the sum is then the one reached so far. *)
Fixpoint sum_web_count (rows : list CsvTikHolder.record) (counted : gset string) (acc : Z)
    : Z * bool :=
  match rows with
  | [] => (acc, true)
  | r :: rows' =>
      if decide (CsvTikHolder.tik_id r ∈ counted) then sum_web_count rows' counted acc
      else match py_int (CsvTikHolder.docs_in_web r) with
           | Some n => sum_web_count rows' ({[CsvTikHolder.tik_id r]} ∪ counted) (acc + n)
           | None => (acc, false)
           end
  end.

(** The two discrepancy lists. *)
Definition csv_not_in_dir (docs filtered_dir_docs : list string) : list (nat * string) :=
  let filtered_dir_docs_set : gset string := list_to_set filtered_dir_docs in
  filter (λ x, x.2 ∉ filtered_dir_docs_set) (enumerate docs).

Definition dir_not_in_csv (docs filtered_dir_docs : list string) : list (nat * string) :=
  let docs_set : gset string := list_to_set docs in
  filter (λ x, x.2 ∉ docs_set) (enumerate filtered_dir_docs).

Definition status_tik (r : CsvTikHolder.record) : GushChelka.t :=
  GushChelka.set_tik_id (CsvTikHolder.tik_id r)
    (GushChelka.init (CsvTikHolder.ktatrova r) (CsvTikHolder.ms_gush r)
       (CsvTikHolder.ms_chelka r)).

(** [verify_ktatrova].  [res_dir_exists] is [os.path.exists(res_dir)],
    [dir_docs] the listing that the recursive [glob] returns and
    [merged_csv] the merged document table as read from its file.  The
    reporter is returned as the method leaves it, also when it raises. *)
Definition verify_ktatrova (res_dir_exists : bool) (dir_docs : list string)
    (merged_csv : list CsvDocHolder.record) (self : t) : res unit * t :=
  if negb res_dir_exists then (Ok (), self)
  else
    let filtered_dir_docs := filter (λ x, contains FILE_PREFIX x = false) dir_docs in
    let input := default [] (input_csv self) in
    let rows := default [] (status_csv self) in
    let documents := CsvDocHolder.documents merged_csv in
    let (web, ok) := sum_web_count rows ∅ (docs_in_web_count self) in
    let counted :=
      Rep (ktatrova self) (input_csv self) (status_csv self)
        (Z.of_nat (length (filter (λ x, Some x = ktatrova self) input)))
        (Z.of_nat (length rows))
        (completed self) (mismatches self) (waiting self)
        (Z.of_nat (length documents))
        (Z.of_nat (length filtered_dir_docs))
        web
        (CsvDocHolder.ms_gush <$> merged_csv)
        (CsvDocHolder.ms_chelka <$> merged_csv)
        (CsvDocHolder.tik_id <$> merged_csv)
        (CsvDocHolder.page_number <$> merged_csv)
        (CsvDocHolder.row_number <$> merged_csv)
        documents
        (in_csv_not_in_dir self) (in_dir_not_in_csv self) (reporters self) in
    if negb ok then (Raise ValueError, counted)
    else
      (Ok (),
       Rep (ktatrova counted) (input_csv counted) (status_csv counted)
         (gush_chelka_received counted) (tiks_received counted)
         (completed self ++
            (status_tik <$> filter (λ r, CsvTikHolder.status r = COMPLETED) rows))
         (mismatches self ++
            (status_tik <$> filter (λ r, CsvTikHolder.status r ≠ COMPLETED ∧
                                         CsvTikHolder.status r = MISMATCH) rows))
         (waiting self ++
            (status_tik <$> filter (λ r, CsvTikHolder.status r ≠ COMPLETED ∧
                                         CsvTikHolder.status r ≠ MISMATCH) rows))
         (docs_in_csv_count counted) (docs_in_dir_count counted) (docs_in_web_count counted)
         (gushes counted) (chelkas counted) (ids counted) (pages counted)
         (row_nums counted) (docs counted)
         (csv_not_in_dir documents filtered_dir_docs)
         (dir_not_in_csv documents filtered_dir_docs)
         (reporters counted)).

End Reporter.

(** The sum of a numeric field over a list. *)
Definition sum_of {A} (f : A → Z) (l : list A) : Z := foldr (λ x acc, f x + acc) 0 l.

(** [merge_reports]: the merged reporter handed to [write_report]. *)
Definition merge_step (merged_reporter reporter : Reporter.t) : Reporter.t :=
  Reporter.Rep
    (Reporter.ktatrova merged_reporter)
    (Reporter.input_csv merged_reporter)
    (Reporter.status_csv merged_reporter)
    (Reporter.gush_chelka_received merged_reporter + Reporter.gush_chelka_received reporter)
    (Reporter.tiks_received merged_reporter + Reporter.tiks_received reporter)
    (Reporter.completed merged_reporter ++ Reporter.completed reporter)
    (Reporter.mismatches merged_reporter ++ Reporter.mismatches reporter)
    (Reporter.waiting merged_reporter ++ Reporter.waiting reporter)
    (Reporter.docs_in_csv_count merged_reporter + Reporter.docs_in_csv_count reporter)
    (Reporter.docs_in_dir_count merged_reporter + Reporter.docs_in_dir_count reporter)
    (Reporter.docs_in_web_count merged_reporter + Reporter.docs_in_web_count reporter)
    (Reporter.gushes merged_reporter)
    (Reporter.chelkas merged_reporter)
    (Reporter.ids merged_reporter)
    (Reporter.pages merged_reporter)
    (Reporter.row_nums merged_reporter)
    (Reporter.docs merged_reporter)
    (Reporter.in_csv_not_in_dir merged_reporter ++ Reporter.in_csv_not_in_dir reporter)
    (Reporter.in_dir_not_in_csv merged_reporter ++ Reporter.in_dir_not_in_csv reporter)
    (Reporter.reporters merged_reporter).

Definition merge_reports (reporters : list Reporter.t) : Reporter.t :=
  let merged_reporter :=
    match Reporter.init None None None with
    | Reporter.Rep k i s a b c d e f g h gu ch ids pg rn dc x y _ =>
        Reporter.Rep k i s a b c d e f g h gu ch ids pg rn dc x y reporters
    end in
  foldl merge_step merged_reporter reporters.

(** ** Concrete scenarios *)

Module Scenario.
Import GushChelka.

(** A ledger holding the given rows, as [extend] builds it. *)
Definition ledger (rows : list CsvTikHolder.record) : CsvTikHolder.t :=
  (CsvTikHolder.extend rows CsvTikHolder.empty).1.

Definition ledger_row (chelka tik_id status : string) : CsvTikHolder.record :=
  CsvTikHolder.Record "G1" "100" chelka tik_id status "" "0" "0" "0" "0" "0".

(** The group "G1" at time 0, with its ledger and the files on disk. *)
Definition group (rows : list CsvTikHolder.record) (on_disk : list string)
    (sessions : list Web.Session) : World :=
  MkWorld (ledger rows) None ∅ (list_to_map ((λ p, (p, 0)) <$> on_disk)) 0 sessions.

(** The job of case "T1" of parcel (100, [chelka]), having recorded the
    documents [recorded] out of [declared]. *)
Definition tik_job (w : World) (chelka : string) (recorded : list string) (declared : Z) : t :=
  let j := update_fields_of w (set_tik_id "T1" (init "G1" "100" chelka)) in
  set_docs_in_web declared
    (set_docs_in_csv (Z.of_nat (length recorded))
       (set_res_csv ((λ d, create_record j "" "" "" "" "" (path_join (res_dir j) d))
                       <$> recorded) j)).

(** Two documents declared and recorded, both on disk next to a file
    that is not a document of the case. *)
Definition extra_file_world : World :=
  group [ledger_row "5" "T1" ""]
        ["output/G1/T1/a.pdf"; "output/G1/T1/b.pdf"; "output/G1/T1/notes.txt"] [].
Definition extra_file : state :=
  State (tik_job extra_file_world "5" ["a.pdf"; "b.pdf"] 2) extra_file_world [].

(** A case marked [mismatch] whose counts now agree. *)
Definition mismatch_world : World :=
  group [ledger_row "5" "T1" MISMATCH]
        ["output/G1/T1/a.pdf"; "output/G1/T1/b.pdf"] [].
Definition mismatch_then_agree : state :=
  State (tik_job mismatch_world "5" ["a.pdf"; "b.pdf"] 2) mismatch_world [].

(** A case reached from two parcels: the row of the first parcel is
    [completed], the row of the second is new; one document of two is
    recorded. *)
Definition two_parcels_world : World :=
  group [ledger_row "5" "T1" COMPLETED; ledger_row "6" "T1" ""]
        ["output/G1/T1/a.pdf"] [].
Definition two_parcels : state :=
  State (tik_job two_parcels_world "6" ["a.pdf"] 2) two_parcels_world [].

(** Two rows of one case, both new. *)
Definition two_new_rows_world : World :=
  group [ledger_row "5" "T1" ""; ledger_row "6" "T1" ""]
        ["output/G1/T1/a.pdf"] [].
Definition two_new_rows : state :=
  State (tik_job two_new_rows_world "6" ["a.pdf"] 2) two_new_rows_world [].

(** A group report with its document table. *)
Definition report_with_docs : Reporter.t :=
  (Reporter.verify_ktatrova true ["output/G1/T1/a.pdf"]
     [CsvDocHolder.Record "G1" "100" "5" "" "" "T1" "1" "1" "" "" "" "" "" "output/G1/T1/a.pdf"]
     (Reporter.init (Some "G1") (Some ["G1"]) (Some [ledger_row "5" "T1" COMPLETED]))).2.

(** Five recorded documents; four of them and a file of no record are
    in the directory. *)
Definition five_docs : list CsvDocHolder.record :=
  (λ d, CsvDocHolder.Record "G1" "100" "5" "" "" "T1" "1" "1" "" "" "" "" "" d)
    <$> ["output/G1/T1/a.pdf"; "output/G1/T1/b.pdf"; "output/G1/T1/c.pdf";
         "output/G1/T1/d.pdf"; "output/G1/T1/e.pdf"].
Definition four_and_one : list string :=
  ["output/G1/T1/notes.txt"; "output/G1/T1/a.pdf"; "output/G1/T1/b.pdf";
   "output/G1/T1/d.pdf"; "output/G1/T1/e.pdf"; "output/G1/log__status_TatRovaG1.csv"].

(** A document row of the site: eight cells, the size in the sixth. *)
Definition doc_row (doc size : string) (click : Web.click_outcome) : Web.Tr :=
  {| Web.find_fault := false;
     Web.cells := ["01/01/2000"; "permit"; ""; "1"; "2"; size; ""; ""];
     Web.documentid := Some doc;
     Web.click := click;
     Web.back_btn := false |}.

(** A session that shows one page with the given rows. *)
Definition one_page (declared : Z) (trs : list Web.Tr) : Web.Session :=
  Web.MkSession false [] false
    [{| Web.web_count := declared; Web.multiple_gush_chelka := ""; Web.address := "";
        Web.trs := trs; Web.next_page_btn := false |}].

(** The job of case "T1" of parcel (100, [chelka]) as [put_tiks_in_queue]
    makes it. *)
Definition fresh_tik_job (w : World) (chelka : string) : t :=
  update_fields_of w (set_tik_id "T1" (init "G1" "100" chelka)).

(** One case reached from the parcels (100, 5) and (100, 6), both rows
    new, and a session for the job that fetches it. *)
Definition shared_case : World :=
  group [ledger_row "5" "T1" ""; ledger_row "6" "T1" ""] []
        [one_page 1 [doc_row "a.pdf" "0.5MB" (Web.ClickDownloads (Some 20))]].

(** The site declares one document for the case and lists two; both
    files are on disk.  The state is the one in which [process_tik]
    calls [handle_table]. *)
Definition two_listed_session : Web.Session :=
  one_page 1 [doc_row "a.pdf" "0.5MB" (Web.ClickDownloads None);
              doc_row "b.pdf" "0.5MB" (Web.ClickDownloads None)].
Definition two_listed_world : World :=
  group [ledger_row "5" "T1" ""] ["output/G1/T1/a.pdf"; "output/G1/T1/b.pdf"] [].
Definition two_listed : state :=
  State (set_current_page 1%nat
           (set_driver (Some two_listed_session) (fresh_tik_job two_listed_world "5")))
        two_listed_world [].




(** The parcel (100, 5) of group "G1": the search shows the case "T1";
    its page declares two documents and lists them; the file of the
    first is on disk, the file of the second never comes. *)
Definition end_to_end : World :=
  MkWorld CsvTikHolder.empty None ∅ {["output/G1/T1/a.pdf" := 0]} 0
    [Web.MkSession false ["T1"] false [];
     one_page 2 [doc_row "a.pdf" "0.5MB" (Web.ClickDownloads None);
                 doc_row "b.pdf" "0.5MB" (Web.ClickDownloads None)]].

(** A group with nothing on disk and no download under way. *)
Definition empty_disk : World := group [] [] [].

End Scenario.

(** * Properties *)

(** ** Lists and indexes *)

Section enumerate_facts.
Context {A : Type}.
Implicit Types l : list A.

Lemma enumerate_lookup l i : enumerate l !! i = (λ x, (i, x)) <$> l !! i.
Proof. unfold enumerate. apply list_lookup_imap. Qed.

Lemma elem_of_enumerate l i x : (i, x) ∈ enumerate l ↔ l !! i = Some x.
Proof.
  unfold enumerate. rewrite elem_of_lookup_imap. split.
  - by intros (k & y & [= -> ->] & H).
  - eauto.
Qed.

Lemma enumerate_fst l : (enumerate l).*1 = seq 0 (length l).
Proof.
  apply list_eq. intros i. rewrite list_lookup_fmap, enumerate_lookup.
  destruct (l !! i) as [x|] eqn:E; simpl; symmetry.
  - apply lookup_seq. split; [done|]. eapply lookup_lt_Some; eauto.
  - apply lookup_seq_ge. by apply lookup_ge_None.
Qed.

Lemma enumerate_snd l : (enumerate l).*2 = l.
Proof.
  apply list_eq. intros i. rewrite list_lookup_fmap, enumerate_lookup.
  by destruct (l !! i).
Qed.

(** The indexes selected from an enumeration are distinct. *)
Lemma NoDup_filter_enumerate (P : nat * A → Prop) `{∀ x, Decision (P x)} l :
  NoDup (filter P (enumerate l)).*1.
Proof.
  eapply sublist_NoDup; [|apply fmap_sublist, sublist_filter].
  rewrite enumerate_fst. apply NoDup_seq.
Qed.

Lemma elem_of_filter_enumerate (P : nat * A → Prop) `{∀ x, Decision (P x)} l i :
  i ∈ (filter P (enumerate l)).*1 ↔ ∃ x, l !! i = Some x ∧ P (i, x).
Proof.
  rewrite list_elem_of_fmap. split.
  - intros ([k x] & -> & [HP Hin]%list_elem_of_filter).
    apply elem_of_enumerate in Hin. eauto.
  - intros (x & Hx & HP). exists (i, x). split; [done|].
    apply list_elem_of_filter. split; [done|]. by apply elem_of_enumerate.
Qed.

(** Altering the rows at distinct indexes, one after the other. *)
Lemma foldl_alter_lookup (f : A → A) (indexes : list nat) l k :
  NoDup indexes →
  foldl (λ l i, alter f i l) l indexes !! k
  = if decide (k ∈ indexes) then f <$> l !! k else l !! k.
Proof.
  intros Hnd. revert l. induction Hnd as [|i indexes Hi Hnd IH]; intros l; cbn [foldl].
  - by rewrite decide_False by apply not_elem_of_nil.
  - rewrite IH. destruct (decide (k = i)) as [->|Hne].
    + rewrite list_lookup_alter_eq.
      destruct (decide (i ∈ indexes)) as [|_]; [done|].
      destruct (decide (i ∈ i :: indexes)) as [_|Hn]; [done|].
      destruct Hn. left.
    + rewrite list_lookup_alter_ne by done.
      destruct (decide (k ∈ indexes)) as [Hin|Hnin];
        destruct (decide (k ∈ i :: indexes)) as [Hin'|Hnin']; try done.
      * destruct Hnin'. by right.
      * apply elem_of_cons in Hin' as [?|?]; done.
Qed.

End enumerate_facts.

(** ** [str] and [int] *)

Lemma py_int_str (z : Z) : py_int (str z) = Some z.
Proof.
  unfold py_int, str. rewrite NilZero.isi.
  - simpl. f_equal. apply DecimalZ.of_to.
  - destruct z; simpl; try discriminate.
    intros [= H]. by apply Unsigned.to_uint_nonnil in H.
  - destruct z; simpl; try discriminate.
    intros [= H]. by apply Unsigned.to_uint_nonnil in H.
Qed.

Lemma str_inj (a b : Z) : str a = str b → a = b.
Proof. intros H. apply (f_equal py_int) in H. rewrite !py_int_str in H. congruence. Qed.

Lemma str_0 (z : Z) : str z = "0" ↔ z = 0.
Proof. split; [apply (str_inj z 0)|by intros ->]. Qed.

(** ** [update_status_csv] *)

Section update_status_csv_facts.
Import GushChelka.
Implicit Types (s : state) (r : CsvTikHolder.record).

Lemma update_status_csv_returns s : (update_status_csv s).1 = Ok ().
Proof. reflexivity. Qed.

Lemma update_status_csv_self s : self (update_status_csv s).2 = self s.
Proof. reflexivity. Qed.

Lemma update_status_csv_queue s : queue (update_status_csv s).2 = queue s.
Proof. reflexivity. Qed.

Lemma update_status_csv_eq s :
  update_status_csv s
  = (Ok (),
     State (self s)
       (flush (set_status_csv
                 (CsvTikHolder.set_rows
                    (λ rows, foldl (λ rows i, alter (updated_row (self s) (world s)) i rows)
                                   rows (duplicated_tiks (self s) rows))
                    (status_csv (world s)))
                 (world s)))
       (queue s)).
Proof. reflexivity. Qed.

(** The rows after the update: the rows of the case are passed through
    [update_row], the others are left as they are. *)
Lemma update_status_csv_rows s :
  CsvTikHolder.rows (status_csv (world (update_status_csv s).2))
  = (λ r, if decide (CsvTikHolder.tik_id r = tik_id (self s))
          then updated_row (self s) (world s) r else r)
    <$> CsvTikHolder.rows (status_csv (world s)).
Proof.
  rewrite update_status_csv_eq.
  cbn [snd world status_csv flush set_status_file set_status_csv
       CsvTikHolder.rows CsvTikHolder.set_rows].
  apply list_eq. intros k.
  rewrite foldl_alter_lookup by apply NoDup_filter_enumerate.
  rewrite list_lookup_fmap.
  destruct (CsvTikHolder.rows (status_csv (world s)) !! k) as [r|] eqn:Hk; simpl.
  - unfold duplicated_tiks.
    destruct (decide (CsvTikHolder.tik_id r = tik_id (self s))) as [Heq|Hne].
    + rewrite decide_True; [done|].
      apply elem_of_filter_enumerate. by exists r.
    + rewrite decide_False; [done|].
      intros (x & Hx & HP)%elem_of_filter_enumerate. simpl in HP. congruence.
  - by case_decide.
Qed.

Lemma update_status_csv_lookup s i :
  CsvTikHolder.rows (status_csv (world (update_status_csv s).2)) !! i
  = (λ r, if decide (CsvTikHolder.tik_id r = tik_id (self s))
          then updated_row (self s) (world s) r else r)
    <$> CsvTikHolder.rows (status_csv (world s)) !! i.
Proof. by rewrite update_status_csv_rows, list_lookup_fmap. Qed.

(** The persisted ledger after the update. *)
Lemma update_status_csv_file s :
  status_file (world (update_status_csv s).2)
  = CsvTikHolder.to_csv (status_csv (world (update_status_csv s).2))
      (status_file (world s)).
Proof. reflexivity. Qed.

End update_status_csv_facts.

Section completion_facts.
Import GushChelka.
Implicit Types (s : state) (r : CsvTikHolder.record).

Lemma completion_rule_true j filtered missing :
  completion_rule j filtered missing = true ↔
  0 < docs_in_csv j ∧ docs_in_csv j = docs_in_web j ∧
  docs_in_web j <= Z.of_nat (length filtered) ∧ missing = [].
Proof.
  unfold completion_rule.
  rewrite !andb_true_iff, !bool_decide_eq_true. tauto.
Qed.

Lemma COMPLETED_ne_MISMATCH : COMPLETED ≠ MISMATCH.
Proof. discriminate. Qed.

(** What [update_row] writes. *)
Lemma update_row_tik_id j f a b r :
  CsvTikHolder.tik_id (update_row j f a b r) = CsvTikHolder.tik_id r.
Proof. unfold update_row. repeat case_match; reflexivity. Qed.

Lemma update_row_docs_in_csv j f a b r :
  CsvTikHolder.docs_in_csv (update_row j f a b r) = str (docs_in_csv j).
Proof. unfold update_row. repeat case_match; reflexivity. Qed.

Lemma update_row_docs_in_directory j f a b r :
  CsvTikHolder.docs_in_directory (update_row j f a b r) = str (Z.of_nat (length f)).
Proof. unfold update_row. repeat case_match; reflexivity. Qed.

Lemma update_row_docs_in_dir_not_in_csv j f a b r :
  CsvTikHolder.docs_in_dir_not_in_csv (update_row j f a b r) = str (Z.of_nat (length a)).
Proof. unfold update_row. repeat case_match; reflexivity. Qed.

Lemma update_row_docs_in_csv_not_in_dir j f a b r :
  CsvTikHolder.docs_in_csv_not_in_dir (update_row j f a b r) = str (Z.of_nat (length b)).
Proof. unfold update_row. repeat case_match; reflexivity. Qed.

Lemma update_row_docs_in_web j f a b r :
  CsvTikHolder.docs_in_web (update_row j f a b r)
  = if bool_decide (CsvTikHolder.docs_in_web r = "0") && bool_decide (docs_in_web j > 0)
    then str (docs_in_web j) else CsvTikHolder.docs_in_web r.
Proof. unfold update_row. repeat case_match; reflexivity. Qed.

Lemma update_row_status j f a b r :
  CsvTikHolder.status (update_row j f a b r)
  = if completion_rule j f b then COMPLETED
    else if decide (CsvTikHolder.status r = COMPLETED) then COMPLETED else MISMATCH.
Proof.
  unfold update_row. repeat case_match; try reflexivity; done.
Qed.

(** C1, as amended.  A row of the case that [update_status_csv] visits is
    [completed] afterwards exactly when the rule holds - a positive
    recorded count equal to the declared count, at least as many files
    in the directory, and no recorded document missing from it - or when
    it was [completed] already.  A row that the update turns to
    [completed] carries the recorded count, equal to the declared one
    and at most the directory count, and no recorded document missing;
    the directory may hold further files. *)
Theorem completed_by_the_rule s i r :
  CsvTikHolder.rows (status_csv (world s)) !! i = Some r →
  CsvTikHolder.tik_id r = tik_id (self s) →
  let j := self s in
  let in_dir := Z.of_nat (length (filtered_dir_docs j (world s))) in
  (update_status_csv s).1 = Ok () ∧
  ∃ r', CsvTikHolder.rows (status_csv (world (update_status_csv s).2)) !! i = Some r' ∧
    (CsvTikHolder.status r' = COMPLETED ↔
       (0 < docs_in_csv j ∧ docs_in_csv j = docs_in_web j ∧ docs_in_web j <= in_dir ∧
        docs_in_csv_not_in_dir j (world s) = [])
       ∨ CsvTikHolder.status r = COMPLETED) ∧
    (CsvTikHolder.status r ≠ COMPLETED → CsvTikHolder.status r' = COMPLETED →
       py_int (CsvTikHolder.docs_in_csv r') = Some (docs_in_csv j) ∧
       docs_in_csv j = docs_in_web j ∧
       py_int (CsvTikHolder.docs_in_directory r') = Some in_dir ∧
       docs_in_web j <= in_dir ∧
       py_int (CsvTikHolder.docs_in_csv_not_in_dir r') = Some 0 ∧
       py_int (CsvTikHolder.docs_in_dir_not_in_csv r')
         = Some (Z.of_nat (length (docs_in_dir_not_in_csv j (world s)))) ∧
       (CsvTikHolder.docs_in_web r = "0" →
          py_int (CsvTikHolder.docs_in_web r') = Some (docs_in_web j)) ∧
       (CsvTikHolder.docs_in_web r ≠ "0" →
          CsvTikHolder.docs_in_web r' = CsvTikHolder.docs_in_web r)).
Proof.
  intros Hi Htik j in_dir. split; [reflexivity|].
  eexists. split.
  { rewrite update_status_csv_lookup, Hi. simpl. by rewrite decide_True. }
  unfold updated_row. fold j. split.
  - rewrite update_row_status.
    destruct (completion_rule j _ _) eqn:Hrule.
    + apply completion_rule_true in Hrule. tauto.
    + assert (¬ (0 < docs_in_csv j ∧ docs_in_csv j = docs_in_web j ∧
                 docs_in_web j <= in_dir ∧ docs_in_csv_not_in_dir j (world s) = [])) as Hn.
      { intros H. apply completion_rule_true in H. congruence. }
      case_decide; [tauto|]. split; [discriminate|]. tauto.
  - intros Hne. rewrite update_row_status.
    destruct (completion_rule j _ _) eqn:Hrule.
    2:{ rewrite decide_False by done. discriminate. }
    intros _. apply completion_rule_true in Hrule as (Hpos & Heq & Hle & Hmiss).
    rewrite update_row_docs_in_csv, update_row_docs_in_directory,
      update_row_docs_in_csv_not_in_dir, update_row_docs_in_dir_not_in_csv,
      update_row_docs_in_web, !py_int_str, Hmiss.
    repeat split; try done.
    + intros ->. rewrite bool_decide_eq_true_2 by done.
      rewrite bool_decide_eq_true_2 by lia. apply py_int_str.
    + intros Hw. by rewrite bool_decide_eq_false_2.
Qed.

Lemma completed_by_the_rule_witness :
  CsvTikHolder.rows (status_csv (world Scenario.extra_file)) !! 0%nat
    = Some (Scenario.ledger_row "5" "T1" "") ∧
  (update_status_csv Scenario.extra_file).1 = Ok ().
Proof.
  split; [reflexivity|].
  apply (completed_by_the_rule Scenario.extra_file 0 (Scenario.ledger_row "5" "T1" ""));
    reflexivity.
Defined.

(** C1 fails as stated: the case is [completed] although its directory
    holds three files for two recorded and declared documents, one of
    them in no record. *)
Lemma completed_with_extra_file :
  CsvTikHolder.rows (status_csv (world (update_status_csv Scenario.extra_file).2)) !! 0%nat
  = Some (CsvTikHolder.Record "G1" "100" "5" "T1" COMPLETED "" "2" "3" "2" "0" "1").
Proof. vm_compute. reflexivity. Qed.

(** C3 fails as stated: a row marked [mismatch] becomes [completed] at
    the next update whose counts satisfy the rule. *)
Lemma mismatch_is_reconsidered :
  CsvTikHolder.status <$> CsvTikHolder.rows (status_csv (world Scenario.mismatch_then_agree))
    = [MISMATCH] ∧
  CsvTikHolder.status <$>
    CsvTikHolder.rows (status_csv (world (update_status_csv Scenario.mismatch_then_agree).2))
    = [COMPLETED].
Proof. split; vm_compute; reflexivity. Qed.

(** C3, as amended.  It is [completed] that is sticky: a row of the case
    that is [completed] stays so at every update, whatever the counts; a
    row marked [mismatch] is decided again at every update, and becomes
    [completed] as soon as the rule holds; the rows of the other cases
    keep their status. *)
Theorem completed_is_sticky s i r :
  CsvTikHolder.rows (status_csv (world s)) !! i = Some r →
  ∃ r', CsvTikHolder.rows (status_csv (world (update_status_csv s).2)) !! i = Some r' ∧
    (CsvTikHolder.status r = COMPLETED → CsvTikHolder.status r' = COMPLETED) ∧
    (CsvTikHolder.tik_id r = tik_id (self s) → CsvTikHolder.status r = MISMATCH →
       CsvTikHolder.status r'
       = if completion_rule (self s) (filtered_dir_docs (self s) (world s))
              (docs_in_csv_not_in_dir (self s) (world s))
         then COMPLETED else MISMATCH) ∧
    (CsvTikHolder.tik_id r ≠ tik_id (self s) → r' = r).
Proof.
  intros Hi. eexists. split.
  { rewrite update_status_csv_lookup, Hi. reflexivity. }
  cbv beta. split; [|split].
  - intros Hc. case_decide; [|done].
    unfold updated_row. rewrite update_row_status.
    case_match; [done|]. by rewrite decide_True.
  - intros Htik Hm. rewrite decide_True by done.
    unfold updated_row. rewrite update_row_status.
    case_match; [done|]. rewrite decide_False; [done|].
    rewrite Hm. discriminate.
  - intros Hne. by rewrite decide_False.
Qed.

Lemma completed_is_sticky_witness :
  CsvTikHolder.rows (status_csv (world Scenario.two_parcels)) !! 0%nat
    = Some (Scenario.ledger_row "5" "T1" COMPLETED) ∧
  ∃ r', CsvTikHolder.rows (status_csv (world (update_status_csv Scenario.two_parcels).2))
          !! 0%nat = Some r' ∧
        CsvTikHolder.status r' = COMPLETED.
Proof.
  split; [reflexivity|].
  destruct (completed_is_sticky Scenario.two_parcels 0
              (Scenario.ledger_row "5" "T1" COMPLETED) eq_refl) as (r' & Hr' & Hc & _).
  exists r'. split; [exact Hr'|]. apply Hc. reflexivity.
Defined.

(** C10 fails as stated: after an update whose counts miss the rule, the
    row of the first parcel is still [completed] and the row of the
    second parcel is [mismatch]. *)
Lemma parcels_differ_in_status :
  CsvTikHolder.tik_id <$> CsvTikHolder.rows (status_csv (world Scenario.two_parcels))
    = ["T1"; "T1"] ∧
  CsvTikHolder.status <$>
    CsvTikHolder.rows (status_csv (world (update_status_csv Scenario.two_parcels).2))
    = [COMPLETED; MISMATCH].
Proof. split; vm_compute; reflexivity. Qed.

(** C10, as amended.  After an update, any two rows of the case carry the
    same recorded count, directory count and discrepancy counts, those of
    the job; the declared count is written only into the rows where it
    was "0", so two rows that both had "0" agree on it; and the two rows
    agree on the status when the rule holds (both [completed]), when
    neither was [completed] before, or when both were. *)
Theorem rows_of_a_case_agree s i1 i2 r1 r2 :
  CsvTikHolder.rows (status_csv (world s)) !! i1 = Some r1 →
  CsvTikHolder.rows (status_csv (world s)) !! i2 = Some r2 →
  CsvTikHolder.tik_id r1 = tik_id (self s) →
  CsvTikHolder.tik_id r2 = tik_id (self s) →
  let j := self s in
  ∃ r1' r2',
    CsvTikHolder.rows (status_csv (world (update_status_csv s).2)) !! i1 = Some r1' ∧
    CsvTikHolder.rows (status_csv (world (update_status_csv s).2)) !! i2 = Some r2' ∧
    CsvTikHolder.docs_in_csv r1' = str (docs_in_csv j) ∧
    CsvTikHolder.docs_in_csv r2' = str (docs_in_csv j) ∧
    CsvTikHolder.docs_in_directory r1' = CsvTikHolder.docs_in_directory r2' ∧
    CsvTikHolder.docs_in_csv_not_in_dir r1' = CsvTikHolder.docs_in_csv_not_in_dir r2' ∧
    CsvTikHolder.docs_in_dir_not_in_csv r1' = CsvTikHolder.docs_in_dir_not_in_csv r2' ∧
    (CsvTikHolder.docs_in_web r1 = CsvTikHolder.docs_in_web r2 →
       CsvTikHolder.docs_in_web r1' = CsvTikHolder.docs_in_web r2') ∧
    (completion_rule j (filtered_dir_docs j (world s)) (docs_in_csv_not_in_dir j (world s))
       = true →
       CsvTikHolder.status r1' = COMPLETED ∧ CsvTikHolder.status r2' = COMPLETED) ∧
    (CsvTikHolder.status r1 ≠ COMPLETED → CsvTikHolder.status r2 ≠ COMPLETED →
       CsvTikHolder.status r1' = CsvTikHolder.status r2') ∧
    (CsvTikHolder.status r1 = COMPLETED → CsvTikHolder.status r2 = COMPLETED →
       CsvTikHolder.status r1' = CsvTikHolder.status r2').
Proof.
  intros H1 H2 Ht1 Ht2 j. eexists _, _. split; [|split].
  { rewrite update_status_csv_lookup, H1. simpl. by rewrite decide_True. }
  { rewrite update_status_csv_lookup, H2. simpl. by rewrite decide_True. }
  unfold updated_row. fold j.
  rewrite !update_row_docs_in_csv, !update_row_docs_in_directory,
    !update_row_docs_in_csv_not_in_dir, !update_row_docs_in_dir_not_in_csv,
    !update_row_docs_in_web, !update_row_status.
  split; [done|]. split; [done|]. split; [done|]. split; [done|]. split; [done|].
  split; [by intros ->|]. split; [|split].
  - by intros ->.
  - intros Hn1 Hn2. case_match; [done|]. by rewrite !decide_False.
  - intros Hc1 Hc2. case_match; [done|]. by rewrite !decide_True.
Qed.

Lemma rows_of_a_case_agree_witness :
  CsvTikHolder.rows (status_csv (world Scenario.two_new_rows)) !! 0%nat
    = Some (Scenario.ledger_row "5" "T1" "") ∧
  CsvTikHolder.rows (status_csv (world Scenario.two_new_rows)) !! 1%nat
    = Some (Scenario.ledger_row "6" "T1" "") ∧
  ∃ r1' r2',
    CsvTikHolder.rows (status_csv (world (update_status_csv Scenario.two_new_rows).2))
      !! 0%nat = Some r1' ∧
    CsvTikHolder.rows (status_csv (world (update_status_csv Scenario.two_new_rows).2))
      !! 1%nat = Some r2' ∧
    CsvTikHolder.status r1' = CsvTikHolder.status r2'.
Proof.
  split; [reflexivity|]. split; [reflexivity|].
  destruct (rows_of_a_case_agree Scenario.two_new_rows 0 1
              (Scenario.ledger_row "5" "T1" "") (Scenario.ledger_row "6" "T1" "")
              eq_refl eq_refl eq_refl eq_refl)
    as (r1' & r2' & H1 & H2 & _ & _ & _ & _ & _ & _ & _ & Hs & _).
  exists r1', r2'. split; [exact H1|]. split; [exact H2|].
  apply Hs; discriminate.
Defined.

End completion_facts.

(** ** [merge_reports] *)

Section merge_facts.
Implicit Types (m r : Reporter.t) (rs : list Reporter.t).

(** The loop of [merge_reports], from any reporter. *)
Lemma foldl_merge_step rs m :
  foldl merge_step m rs
  = Reporter.Rep (Reporter.ktatrova m) (Reporter.input_csv m) (Reporter.status_csv m)
      (Reporter.gush_chelka_received m + sum_of Reporter.gush_chelka_received rs)
      (Reporter.tiks_received m + sum_of Reporter.tiks_received rs)
      (Reporter.completed m ++ concat (Reporter.completed <$> rs))
      (Reporter.mismatches m ++ concat (Reporter.mismatches <$> rs))
      (Reporter.waiting m ++ concat (Reporter.waiting <$> rs))
      (Reporter.docs_in_csv_count m + sum_of Reporter.docs_in_csv_count rs)
      (Reporter.docs_in_dir_count m + sum_of Reporter.docs_in_dir_count rs)
      (Reporter.docs_in_web_count m + sum_of Reporter.docs_in_web_count rs)
      (Reporter.gushes m) (Reporter.chelkas m) (Reporter.ids m) (Reporter.pages m)
      (Reporter.row_nums m) (Reporter.docs m)
      (Reporter.in_csv_not_in_dir m ++ concat (Reporter.in_csv_not_in_dir <$> rs))
      (Reporter.in_dir_not_in_csv m ++ concat (Reporter.in_dir_not_in_csv <$> rs))
      (Reporter.reporters m).
Proof.
  revert m. induction rs as [|r rs IH]; intros m.
  - destruct m. cbn. rewrite !Z.add_0_r, !app_nil_r. reflexivity.
  - cbn [foldl]. rewrite IH. destruct m. cbn.
    rewrite <- !Z.add_assoc, <- !app_assoc. reflexivity.
Qed.

(** C8 fails as stated: the document list of a group report is a list
    field that the merged reporter does not take over. *)
Lemma merged_docs_stay_empty :
  Reporter.docs Scenario.report_with_docs = ["output/G1/T1/a.pdf"] ∧
  Reporter.docs (merge_reports [Scenario.report_with_docs]) = [] ∧
  Reporter.docs (merge_reports [Scenario.report_with_docs])
    ≠ concat (Reporter.docs <$> [Scenario.report_with_docs]).
Proof. split; [|split]; vm_compute; [reflexivity|reflexivity|discriminate]. Qed.

(** C8, as amended.  The five numeric fields of the merged reporter are
    the sums over the reports; the lists of completed, mismatched and
    waiting tiks and the two discrepancy lists are the concatenations of
    those of the reports; the lists that describe the documents of one
    group stay empty, and [reporters] holds the reports.  Two reports
    with 3 and 2 completed tiks and 1 and 0 mismatches merge into 5
    completed and 1 mismatch: the lengths add up. *)
Theorem merge_reports_aggregates rs r1 r2 :
  let m := merge_reports rs in
  Reporter.gush_chelka_received m = sum_of Reporter.gush_chelka_received rs ∧
  Reporter.tiks_received m = sum_of Reporter.tiks_received rs ∧
  Reporter.docs_in_csv_count m = sum_of Reporter.docs_in_csv_count rs ∧
  Reporter.docs_in_dir_count m = sum_of Reporter.docs_in_dir_count rs ∧
  Reporter.docs_in_web_count m = sum_of Reporter.docs_in_web_count rs ∧
  Reporter.completed m = concat (Reporter.completed <$> rs) ∧
  Reporter.mismatches m = concat (Reporter.mismatches <$> rs) ∧
  Reporter.waiting m = concat (Reporter.waiting <$> rs) ∧
  Reporter.in_csv_not_in_dir m = concat (Reporter.in_csv_not_in_dir <$> rs) ∧
  Reporter.in_dir_not_in_csv m = concat (Reporter.in_dir_not_in_csv <$> rs) ∧
  Reporter.reporters m = rs ∧
  (Reporter.gushes m = [] ∧ Reporter.chelkas m = [] ∧ Reporter.ids m = [] ∧
   Reporter.pages m = [] ∧ Reporter.row_nums m = [] ∧ Reporter.docs m = []) ∧
  length (Reporter.completed (merge_reports [r1; r2]))
    = (length (Reporter.completed r1) + length (Reporter.completed r2))%nat ∧
  length (Reporter.mismatches (merge_reports [r1; r2]))
    = (length (Reporter.mismatches r1) + length (Reporter.mismatches r2))%nat.
Proof.
  intros m. unfold m, merge_reports. rewrite !foldl_merge_step. cbn.
  rewrite !app_nil_r, !length_app. repeat split; reflexivity.
Qed.

End merge_facts.

(** ** The reconciler *)

Section filter_facts.
Context {A : Type}.

Lemma filter_fmap {B} (f : B → A) (P : A → Prop) `{∀ x, Decision (P x)} (l : list B) :
  filter P (f <$> l) = f <$> filter (λ x, P (f x)) l.
Proof.
  induction l as [|x l IH]; [done|]. cbn [fmap list_fmap].
  rewrite !filter_cons, IH. by case_decide.
Qed.

Lemma filter_none (P : A → Prop) `{∀ x, Decision (P x)} (l : list A) :
  (∀ x, x ∈ l → ¬ P x) → filter P l = [].
Proof.
  induction l as [|x l IH]; intros Hl; [done|].
  rewrite filter_cons, decide_False by (apply Hl; left).
  apply IH. intros y Hy. apply Hl. by right.
Qed.

(** A filter on an enumeration that looks at the elements only. *)
Lemma filter_enumerate_snd (P : A → Prop) `{∀ x, Decision (P x)} (l : list A) :
  (filter (λ x : nat * A, P x.2) (enumerate l)).*2 = filter P l.
Proof. by rewrite <- (filter_fmap snd), enumerate_snd. Qed.

(** A list that all but one element of [present ++ [x]] fail to pass. *)
Lemma filter_only_one (P : A → Prop) `{∀ x, Decision (P x)} (l present : list A) (x : A) :
  l ≡ₚ present ++ [x] → (∀ y, y ∈ present → ¬ P y) → P x →
  ∃ i, filter (λ x : nat * A, P x.2) (enumerate l) = [(i, x)] ∧ l !! i = Some x.
Proof.
  intros Hl Hpresent Hx.
  assert (filter P l ≡ₚ [x]) as Hf.
  { rewrite Hl, filter_app, (filter_none P present) by done.
    by rewrite filter_cons, decide_True. }
  apply Permutation_singleton_r in Hf.
  rewrite <- filter_enumerate_snd in Hf.
  destruct (filter _ (enumerate l)) as [|[i y] [|??]] eqn:He; try done.
  injection Hf as ->. exists i. split; [done|].
  apply elem_of_enumerate.
  eapply (list_elem_of_filter (λ x : nat * A, P x.2)). rewrite He. left.
Qed.

End filter_facts.

Section verify_facts.
Implicit Types (docs listing : list string).

(** The entries of the two discrepancy lists: the recorded documents
    that the listing lacks, and the listed files that no record names,
    each with its position. *)
Lemma csv_not_in_dir_spec docs listing i x :
  (i, x) ∈ Reporter.csv_not_in_dir docs listing ↔ docs !! i = Some x ∧ x ∉ listing.
Proof.
  unfold Reporter.csv_not_in_dir.
  rewrite list_elem_of_filter, elem_of_enumerate, elem_of_list_to_set. simpl. tauto.
Qed.

Lemma dir_not_in_csv_spec docs listing i x :
  (i, x) ∈ Reporter.dir_not_in_csv docs listing ↔ listing !! i = Some x ∧ x ∉ docs.
Proof.
  unfold Reporter.dir_not_in_csv.
  rewrite list_elem_of_filter, elem_of_enumerate, elem_of_list_to_set. simpl. tauto.
Qed.

(** C7.  The two discrepancy lists of [verify_ktatrova] are the
    differences of the document table and the filtered listing; when the
    listing holds all recorded documents but one, and one file that no
    record names, each list has exactly one entry: the missing document
    and the unrelated file. *)
Theorem reconciliation_one_missing_one_unrelated
    (self : Reporter.t) (dir_docs : list string) (merged_csv : list CsvDocHolder.record)
    (present : list string) (missing unrelated : string) :
  let docs := CsvDocHolder.documents merged_csv in
  let listing := filter (λ x, contains FILE_PREFIX x = false) dir_docs in
  (Reporter.sum_web_count (default [] (Reporter.status_csv self)) ∅
     (Reporter.docs_in_web_count self)).2 = true →
  NoDup (present ++ [missing; unrelated]) →
  docs ≡ₚ present ++ [missing] →
  listing ≡ₚ present ++ [unrelated] →
  ∃ r i k,
    Reporter.verify_ktatrova true dir_docs merged_csv self = (Ok (), r) ∧
    Reporter.in_csv_not_in_dir r = [(i, missing)] ∧ docs !! i = Some missing ∧
    Reporter.in_dir_not_in_csv r = [(k, unrelated)] ∧ listing !! k = Some unrelated ∧
    (∀ n x, (n, x) ∈ Reporter.in_csv_not_in_dir r ↔ docs !! n = Some x ∧ x ∉ listing) ∧
    (∀ n x, (n, x) ∈ Reporter.in_dir_not_in_csv r ↔ listing !! n = Some x ∧ x ∉ docs).
Proof.
  intros docs listing Hsum Hnd Hdocs Hlisting.
  apply NoDup_app in Hnd as (_ & Hsep & Hmu).
  apply NoDup_cons in Hmu as [Hmu _]. rewrite list_elem_of_singleton in Hmu.
  assert (missing ∉ listing) as Hmissing.
  { rewrite Hlisting, elem_of_app, list_elem_of_singleton.
    intros [Hin|?]; [|done]. apply (Hsep _ Hin). left. }
  assert (unrelated ∉ docs) as Hunrelated.
  { rewrite Hdocs, elem_of_app, list_elem_of_singleton.
    intros [Hin|?]; [|done]. apply (Hsep _ Hin). right. left. }
  destruct (filter_only_one (λ x, x ∉ (list_to_set listing : gset string))
              docs present missing Hdocs) as (i & Hi & Hdi).
  { intros y Hy HP. apply HP, elem_of_list_to_set. rewrite Hlisting.
    apply elem_of_app. by left. }
  { by rewrite elem_of_list_to_set. }
  destruct (filter_only_one (λ x, x ∉ (list_to_set docs : gset string))
              listing present unrelated Hlisting) as (k & Hk & Hlk).
  { intros y Hy HP. apply HP, elem_of_list_to_set. rewrite Hdocs.
    apply elem_of_app. by left. }
  { by rewrite elem_of_list_to_set. }
  unfold Reporter.verify_ktatrova. cbn [negb].
  destruct (Reporter.sum_web_count _ _ _) as [web ok]. simpl in Hsum. subst ok.
  eexists _, i, k. split; [reflexivity|]. cbn [Reporter.in_csv_not_in_dir
    Reporter.in_dir_not_in_csv].
  split; [exact Hi|]. split; [exact Hdi|]. split; [exact Hk|]. split; [exact Hlk|].
  split; intros n x; [apply csv_not_in_dir_spec|apply dir_not_in_csv_spec].
Qed.

Lemma reconciliation_one_missing_one_unrelated_witness :
  length (CsvDocHolder.documents Scenario.five_docs) = 5%nat ∧
  ∃ r i k,
    Reporter.verify_ktatrova true Scenario.four_and_one Scenario.five_docs
      (Reporter.init (Some "G1") (Some ["G1"])
         (Some [Scenario.ledger_row "5" "T1" MISMATCH])) = (Ok (), r) ∧
    Reporter.in_csv_not_in_dir r = [(i, "output/G1/T1/c.pdf")] ∧
    Reporter.in_dir_not_in_csv r = [(k, "output/G1/T1/notes.txt")].
Proof.
  split; [reflexivity|].
  destruct (reconciliation_one_missing_one_unrelated
              (Reporter.init (Some "G1") (Some ["G1"])
                 (Some [Scenario.ledger_row "5" "T1" MISMATCH]))
              Scenario.four_and_one Scenario.five_docs
              ["output/G1/T1/a.pdf"; "output/G1/T1/b.pdf";
               "output/G1/T1/d.pdf"; "output/G1/T1/e.pdf"]
              "output/G1/T1/c.pdf" "output/G1/T1/notes.txt")
    as (r & i & k & Hr & Hi & _ & Hk & _).
  - reflexivity.
  - compute_done.
  - compute_done.
  - compute_done.
  - exists r, i, k. split; [exact Hr|]. split; [exact Hi|exact Hk].
Defined.

End verify_facts.

(** ** [wait_for_doc] *)

Section wait_facts.
Implicit Types (w : World) (t timer : Z) (b : Q) (n fuel : nat).

Lemma int_lt_float_Fin t b : int_lt_float t (Fin b) = true ↔ (inject_Z t < b)%Q.
Proof.
  unfold int_lt_float. rewrite negb_true_iff, <- not_true_iff_false, Qle_bool_iff.
  split; [apply Qnot_le_lt|apply Qlt_not_le].
Qed.


(** More iterations than needed change nothing. *)
Lemma wait_loop_more fuel fuel' t bound p w r :
  wait_loop fuel t bound p w = Some r → (fuel <= fuel')%nat →
  wait_loop fuel' t bound p w = Some r.
Proof.
  revert fuel' t w. induction fuel as [|fuel IH]; intros fuel' t w Hr Hle.
  - simpl in Hr. destruct (_ && _) eqn:Hc; [done|].
    destruct fuel'; simpl; by rewrite Hc.
  - destruct fuel' as [|fuel']; [lia|]. simpl in *.
    destruct (_ && _); [|done]. apply IH; [done|lia].
Qed.

(** Under a finite bound the loop ends within the iterations that the
    bound allows; [timer] then is the first multiple of 10 at or above
    the bound, or the time of the poll that found the file. *)
Lemma wait_loop_bounded fuel t b p w :
  (b <= inject_Z (t + 10 * Z.of_nat fuel))%Q →
  ∃ timer w',
    wait_loop fuel t (Fin b) p w = Some (timer, w') ∧
    (∃ k : nat, timer = t + 10 * Z.of_nat k ∧ (k <= fuel)%nat) ∧
    (timer = t ∨ (inject_Z (timer - 10) < b)%Q) ∧
    now w' = now w + (timer - t) ∧
    files w' = files w.
Proof.
  revert t w. induction fuel as [|fuel IH]; intros t w Hb; cbn [wait_loop].
  - destruct (int_lt_float t (Fin b)) eqn:Hlt.
    { apply int_lt_float_Fin in Hlt. replace (t + 10 * Z.of_nat 0) with t in Hb by lia.
      exfalso. eapply Qlt_not_le; eauto. }
    cbn [andb]. exists t, w. split; [done|]. split; [exists 0%nat; lia|].
    split; [by left|]. split; [lia|done].
  - destruct (int_lt_float t (Fin b) && negb (path_exists p w)) eqn:Hc.
    2:{ exists t, w. split; [done|]. split; [exists 0%nat; lia|].
        split; [by left|]. split; [lia|done]. }
    apply andb_true_iff in Hc as [Hlt%int_lt_float_Fin _].
    destruct (IH (t + 10) (sleep 10 w)) as (timer & w' & Hw & (k & -> & Hk) & Hlast & Hnow & Hf).
    { replace (t + 10 + 10 * Z.of_nat fuel) with (t + 10 * Z.of_nat (S fuel)) by lia. done. }
    exists (t + 10 + 10 * Z.of_nat k), w'. split; [done|].
    split; [exists (S k); lia|]. split; [|split; [|done]].
    + right. destruct Hlast as [Heq|Hlast]; [|done].
      replace (t + 10 + 10 * Z.of_nat k - 10) with t by lia. done.
    + rewrite Hnow. cbn. lia.
Qed.

(** Without a bound the loop goes on for as long as the file is not
    there: for ever, when no download of it is under way. *)
Lemma wait_loop_unbounded fuel t p w :
  files w !! p = None → wait_loop fuel t Inf p w = None.
Proof.
  revert t w. induction fuel as [|fuel IH]; intros t w Hp; cbn [wait_loop].
  - unfold path_exists. by rewrite Hp.
  - unfold path_exists. rewrite Hp. cbn. by apply IH.
Qed.

Lemma wait_loop_until_there fuel t p w t0 :
  files w !! p = Some t0 → t0 <= now w + 10 * Z.of_nat fuel →
  ∃ r, wait_loop fuel t Inf p w = Some r.
Proof.
  revert t w. induction fuel as [|fuel IH]; intros t w Hp Ht0; cbn [wait_loop].
  - unfold path_exists. rewrite Hp, bool_decide_eq_true_2 by lia. cbn. eauto.
  - destruct (_ && _); [|eauto]. apply IH; [done|]. cbn. lia.
Qed.

Lemma ceiling_fuel b : (b <= inject_Z (0 + 10 * Z.of_nat (Z.to_nat (Qceiling b / 10 + 1))))%Q.
Proof.
  eapply Qle_trans; [apply Qle_ceiling|]. rewrite <- Zle_Qle.
  destruct (Z_lt_le_dec (Qceiling b) 0) as [Hneg|Hpos]; [lia|].
  rewrite Z2Nat.id.
  - pose proof (Z.mul_succ_div_gt (Qceiling b) 10). lia.
  - pose proof (Z.div_pos (Qceiling b) 10). lia.
Qed.

(** The iterations that [wait_fuel] gives are enough, and it gives none
    only when the loop does not end. *)
Lemma wait_fuel_enough bound p w fuel :
  wait_fuel bound p w = Some fuel → ∃ r, wait_loop fuel 0 bound p w = Some r.
Proof.
  destruct bound as [b|]; cbn [wait_fuel].
  - intros [= <-]. destruct (wait_loop_bounded _ 0 b p w (ceiling_fuel b))
      as (timer & w' & H & _). eauto.
  - destruct (files w !! p) as [t0|] eqn:Hp; [|done]. intros [= <-].
    eapply wait_loop_until_there; [done|].
    destruct (Z_lt_le_dec (t0 - now w) 0) as [Hneg|Hpos]; [lia|].
    rewrite Z2Nat.id.
    + pose proof (Z.mul_succ_div_gt (t0 - now w) 10). lia.
    + pose proof (Z.div_pos (t0 - now w) 10). lia.
Qed.

Lemma wait_fuel_none bound p w fuel :
  wait_fuel bound p w = None → wait_loop fuel 0 bound p w = None.
Proof.
  destruct bound as [b|]; cbn [wait_fuel]; [done|].
  destruct (files w !! p) eqn:Hp; [done|]. intros _. by apply wait_loop_unbounded.
Qed.

(** [wait_for_doc_call] is [wait_for_doc] with the iterations it needs. *)
Lemma wait_for_doc_call_returns fuel p size w r w' :
  wait_for_doc fuel p size w = Some (r, w') →
  wait_for_doc_call p size w = (match r with Ok _ => Ok () | Raise e => Raise e | Hang => Hang end, w').
Proof.
  unfold wait_for_doc, wait_for_doc_call. destruct (doubler size) as [d|].
  2:{ by intros [= <- <-]. }
  destruct (wait_loop fuel _ _ _ _) as [[timer w1]|] eqn:Hloop; [|done].
  intros [= <- <-].
  destruct (wait_fuel _ p w) as [fuel'|] eqn:Hfuel.
  - destruct (wait_fuel_enough _ _ _ _ Hfuel) as [[t2 w2] H2]. rewrite H2.
    pose proof (wait_loop_more _ (max fuel fuel') _ _ _ _ _ Hloop (Nat.le_max_l _ _)) as Ha.
    pose proof (wait_loop_more _ (max fuel fuel') _ _ _ _ _ H2 (Nat.le_max_r _ _)) as Hb.
    congruence.
  - by rewrite (wait_fuel_none _ _ _ fuel Hfuel) in Hloop.
Qed.

Lemma wait_for_doc_call_hangs p size w :
  (wait_for_doc_call p size w).1 = Hang → ∀ fuel, wait_for_doc fuel p size w = None.
Proof.
  unfold wait_for_doc, wait_for_doc_call. destruct (doubler size) as [d|]; [|done].
  destruct (wait_fuel _ p w) as [fuel'|] eqn:Hfuel.
  - destruct (wait_fuel_enough _ _ _ _ Hfuel) as [[t2 w2] H2]. by rewrite H2.
  - intros _ fuel. by rewrite (wait_fuel_none _ _ _ fuel Hfuel).
Qed.


(** A size beyond the range of a float gives an infinite factor: the
    call never returns when the file does not come. *)
Lemma wait_for_ever fuel :
  wait_for_doc fuel "output/G1/T1/a.pdf" "1e999MB" Scenario.empty_disk = None.
Proof.
  unfold wait_for_doc.
  assert (doubler "1e999MB" = Some Inf) as -> by (vm_compute; reflexivity).
  cbn [float_times_WAIT_TIME]. by rewrite wait_loop_unbounded.
Qed.

(** The factor: 1 without a match (a size of one digit has none), the
    value itself up to 1, a tenth of it plus 1 above; a text that
    [float] refuses is a [ValueError]. *)
Lemma doubler_examples :
  doubler "0MB" = Some (Fin 1) ∧ doubler "5MB" = Some (Fin 1) ∧
  doubler "" = Some (Fin 1) ∧
  (∃ q, doubler "0.5MB" = Some (Fin q) ∧ (q == 1 # 2)%Q) ∧
  (∃ q, doubler "12MB" = Some (Fin q) ∧ (q == 22 # 10)%Q) ∧
  doubler "1,5MB" = None.
Proof.
  repeat split; try (vm_compute; reflexivity);
    eexists; split; vm_compute; reflexivity.
Qed.



End wait_facts.

(** ** Running a method step by step *)

Section run_facts.
Import GushChelka.
Context {A B : Type}.
Implicit Types (s : state) (k : A → M B).

Lemma run_bind (m : M A) k s :
  (m ≫= k) s = match m s with
               | (Ok a, s') => k a s'
               | (Raise e, s') => (Raise e, s')
               | (Hang, s') => (Hang, s')
               end.
Proof. reflexivity. Qed.

Lemma run_ret (a : A) k s : (ret a ≫= k) s = k a s.
Proof. reflexivity. Qed.

Lemma run_raise e k s : (raise e ≫= k) s = (Raise e, s).
Proof. reflexivity. Qed.

Lemma run_get_self (k : t → M B) s : (get_self ≫= k) s = k (self s) s.
Proof. reflexivity. Qed.

Lemma run_get_world (k : World → M B) s : (get_world ≫= k) s = k (world s) s.
Proof. reflexivity. Qed.

Lemma run_modify_self f (k : unit → M B) s :
  (modify_self f ≫= k) s = k () (State (f (self s)) (world s) (queue s)).
Proof. reflexivity. Qed.

Lemma run_modify_world f (k : unit → M B) s :
  (modify_world f ≫= k) s = k () (State (self s) (f (world s)) (queue s)).
Proof. reflexivity. Qed.

End run_facts.

(** ** Relations kept by the methods of a job *)

Section preserves_facts.
Import GushChelka.
Context (R : state → state → Prop) `{!PreOrder R}.

Lemma preserves_ret {A} (a : A) : preserves R (ret a).
Proof. intros s. unfold claims_grow, claimed. cbn. reflexivity. Qed.

Lemma preserves_raise {A} e : preserves R (@raise A e).
Proof. intros s. unfold claims_grow, claimed. cbn. reflexivity. Qed.

Lemma preserves_get_self : preserves R get_self.
Proof. intros s. unfold claims_grow, claimed. cbn. reflexivity. Qed.

Lemma preserves_get_world : preserves R get_world.
Proof. intros s. unfold claims_grow, claimed. cbn. reflexivity. Qed.

Lemma preserves_bind {A B} (m : M A) (k : A → M B) :
  preserves R m → (∀ a, preserves R (k a)) → preserves R (m ≫= k).
Proof.
  intros Hm Hk s. unfold mbind, M_bind, bind.
  specialize (Hm s). destruct (m s) as [[a|e|] s']; [|done|done].
  etrans; [exact Hm|apply Hk].
Qed.

Lemma preserves_finally {A} (body : M A) (fin : M unit) :
  preserves R body → preserves R fin → preserves R (finally body fin).
Proof.
  intros Hb Hf s. unfold finally.
  specialize (Hb s). destruct (body s) as [r s']. simpl in Hb.
  specialize (Hf s').
  destruct r; [| |done]; destruct (fin s') as [[?|?|] s'']; by etrans.
Qed.

Lemma preserves_foldr {A} (f : A → M unit → M unit) (l : list A) (m : M unit) :
  preserves R m → (∀ x k, preserves R k → preserves R (f x k)) →
  preserves R (foldr f m l).
Proof. intros Hm Hf. induction l; simpl; auto. Qed.

End preserves_facts.

(** Steps through a method built from the combinators of the monad. *)
Ltac preserves_step :=
  match goal with
  | |- GushChelka.preserves _ (_ ≫= _) => apply preserves_bind; [apply _| |intros ?]
  | |- GushChelka.preserves _ (GushChelka.ret _) => apply preserves_ret; apply _
  | |- GushChelka.preserves _ (GushChelka.raise _) => apply preserves_raise; apply _
  | |- GushChelka.preserves _ GushChelka.get_self => apply preserves_get_self; apply _
  | |- GushChelka.preserves _ GushChelka.get_world => apply preserves_get_world; apply _
  | |- GushChelka.preserves _ (GushChelka.finally _ _) =>
      apply preserves_finally; [apply _| |]
  | |- GushChelka.preserves _ (if ?b then _ else _) => destruct b eqn:?
  | |- GushChelka.preserves _ (match ?x with _ => _ end) => destruct x eqn:?
  end.

(** ** The claims on the tiks *)

Create HintDb claims.

Section claims_facts.
Import GushChelka.
Implicit Types (s : state) (w : World).

#[global] Instance claims_grow_preorder : PreOrder claims_grow.
Proof. unfold claims_grow. split; [by intros ?|]. intros ???. set_solver. Qed.

(** A change of the world that leaves the claims alone. *)
Lemma claims_modify_world (f : World → World) :
  (∀ w, CsvTikHolder.tik_ids_queued (status_csv (f w))
        = CsvTikHolder.tik_ids_queued (status_csv w)) →
  preserves claims_grow (modify_world f).
Proof. intros Hf s. unfold claims_grow, claimed. cbn. rewrite Hf. reflexivity. Qed.

Ltac claims :=
  repeat first
    [ preserves_step
    | by eauto with claims
    | by apply claims_modify_world ].

Lemma claims_modify_self (f : t → t) : preserves claims_grow (modify_self f).
Proof. intros s. unfold claims_grow, claimed. cbn. reflexivity. Qed.

Lemma claims_queue_put j : preserves claims_grow (queue_put j).
Proof. intros s. unfold claims_grow, claimed. cbn. reflexivity. Qed.

Lemma claims_ledger_alter f i : preserves claims_grow (ledger_alter f i).
Proof.
  unfold ledger_alter. repeat preserves_step. by apply claims_modify_world.
Qed.

Lemma wait_loop_status_csv fuel t bound p w r :
  wait_loop fuel t bound p w = Some r → status_csv r.2 = status_csv w.
Proof.
  revert t w. induction fuel as [|fuel IH]; intros t w; cbn [wait_loop];
    destruct (_ && _); try done; try by intros [= <-].
  intros H. by rewrite (IH _ _ H).
Qed.

Lemma wait_for_doc_call_status_csv p size w :
  status_csv (wait_for_doc_call p size w).2 = status_csv w.
Proof.
  unfold wait_for_doc_call. repeat case_match; try done.
  match goal with H : wait_loop _ _ _ _ _ = Some _ |- _ =>
    apply wait_loop_status_csv in H end. done.
Qed.

Lemma claims_wait_for_doc p size : preserves claims_grow (wait_for_doc p size).
Proof.
  intros s. unfold wait_for_doc, claims_grow, claimed.
  pose proof (wait_for_doc_call_status_csv p size (world s)) as H.
  destruct (wait_for_doc_call p size (world s)) as [r w']. cbn in *. by rewrite H.
Qed.

Lemma extend_tik_ids_queued records h :
  CsvTikHolder.tik_ids_queued (CsvTikHolder.extend records h).1
  = CsvTikHolder.tik_ids_queued h.
Proof.
  revert h. induction records as [|r records IH]; intros h; [done|].
  cbn [CsvTikHolder.extend]. unfold CsvTikHolder.add.
  destruct (CsvTikHolder.add_next_key _) as [h2|] eqn:Hk.
  - rewrite IH. unfold CsvTikHolder.add_next_key in Hk.
    destruct (_ !! _); [|done]. by injection Hk as <-.
  - done.
Qed.

Hint Resolve claims_modify_self claims_queue_put claims_ledger_alter
  claims_wait_for_doc : claims.

Lemma claims_res_csv_to_csv : preserves claims_grow res_csv_to_csv.
Proof. unfold res_csv_to_csv. claims. Qed.

Lemma claims_update_fields : preserves claims_grow update_fields.
Proof. unfold update_fields. claims. Qed.

Lemma claims_is_active : preserves claims_grow is_active.
Proof.
  unfold is_active. claims.
  intros s. unfold claims_grow, claimed. cbn. set_solver.
Qed.

Lemma claims_put_tiks_in_queue : preserves claims_grow put_tiks_in_queue.
Proof.
  unfold put_tiks_in_queue. claims.
  apply preserves_foldr; [claims|]. intros x k Hk. claims.
Qed.

Lemma claims_get_indexes_from_status : preserves claims_grow get_indexes_from_status.
Proof. unfold get_indexes_from_status. claims. Qed.

Lemma claims_search_no_results_message : preserves claims_grow search_no_results_message.
Proof. unfold search_no_results_message. claims. Qed.

Hint Resolve claims_res_csv_to_csv claims_update_fields claims_is_active
  claims_put_tiks_in_queue claims_get_indexes_from_status
  claims_search_no_results_message : claims.

Lemma claims_get_tik_ids : preserves claims_grow get_tik_ids.
Proof. unfold get_tik_ids. claims. Qed.

Lemma claims_launch_and_accept_policy : preserves claims_grow launch_and_accept_policy.
Proof. unfold launch_and_accept_policy. claims. Qed.

Lemma claims_quit : preserves claims_grow quit.
Proof. unfold quit. claims. Qed.

Lemma claims_add_status_records : preserves claims_grow add_status_records.
Proof.
  intros s. unfold claims_grow, claimed, add_status_records.
  unfold mbind, M_bind, bind, get_self, get_world. cbn.
  match goal with |- context [CsvTikHolder.extend ?r ?h] =>
    pose proof (extend_tik_ids_queued r h) as Hq;
    destruct (CsvTikHolder.extend r h) as [h' ok] end.
  cbn in Hq. destruct ok; cbn; rewrite Hq; reflexivity.
Qed.

Lemma claims_td_click tr p : preserves claims_grow (td_click tr p).
Proof. unfold td_click. claims. Qed.

Hint Resolve claims_get_tik_ids claims_launch_and_accept_policy claims_quit
  claims_add_status_records claims_td_click : claims.

Lemma claims_handle_table_row tr : preserves claims_grow (handle_table_row tr).
Proof. unfold handle_table_row. claims. Qed.

Hint Resolve claims_handle_table_row : claims.

Lemma claims_handle_rows trs : preserves claims_grow (handle_rows trs).
Proof. induction trs as [|tr trs IH]; cbn [handle_rows]; claims. Qed.

Hint Resolve claims_handle_rows : claims.

Lemma claims_handle_table_views views : preserves claims_grow (handle_table_views views).
Proof. induction views as [|v views IH]; cbn [handle_table_views]; claims. Qed.

Hint Resolve claims_handle_table_views : claims.

Lemma claims_handle_table : preserves claims_grow handle_table.
Proof. unfold handle_table. claims. Qed.

Lemma claims_update_status_csv : preserves claims_grow update_status_csv.
Proof. unfold update_status_csv. claims. Qed.

Hint Resolve claims_handle_table claims_update_status_csv : claims.

Lemma claims_discover_tiks : preserves claims_grow discover_tiks.
Proof. unfold discover_tiks. claims. Qed.

Lemma claims_process_tik : preserves claims_grow process_tik.
Proof. unfold process_tik. claims. Qed.

Hint Resolve claims_discover_tiks claims_process_tik : claims.

Lemma claims_fetch : preserves claims_grow fetch.
Proof. unfold fetch. claims. Qed.

Lemma claims_resume : preserves claims_grow resume.
Proof. unfold resume. claims. Qed.

Hint Resolve claims_fetch claims_resume : claims.

Lemma claims_download_docs_and_get_data : preserves claims_grow download_docs_and_get_data.
Proof. unfold download_docs_and_get_data. claims. Qed.

End claims_facts.

#[global] Hint Resolve claims_modify_self claims_queue_put claims_ledger_alter claims_wait_for_doc claims_res_csv_to_csv claims_update_fields claims_is_active claims_put_tiks_in_queue claims_get_indexes_from_status claims_search_no_results_message claims_get_tik_ids claims_launch_and_accept_policy claims_quit claims_add_status_records claims_td_click claims_handle_table_row claims_handle_rows claims_handle_table_views claims_handle_table claims_update_status_csv claims_discover_tiks claims_process_tik claims_fetch claims_resume claims_download_docs_and_get_data : claims.

Section claim_check_facts.
Import GushChelka.
Implicit Types (s : state) (w : World) (j : t).

Lemma claims_on_fault : preserves claims_grow DownloadWorker.on_fault.
Proof.
  unfold DownloadWorker.on_fault.
  repeat first [preserves_step | by eauto with claims].
Qed.

Lemma claims_run_job : preserves claims_grow DownloadWorker.run_job.
Proof.
  intros s. unfold DownloadWorker.run_job.
  pose proof (claims_download_docs_and_get_data s) as H1.
  destruct (download_docs_and_get_data s) as [[?|e|] s']; try done.
  etrans; [exact H1|apply claims_on_fault].
Qed.

(** The worker only adds claims. *)
Lemma claims_run fuel w q :
  CsvTikHolder.tik_ids_queued (status_csv w)
  ⊆ CsvTikHolder.tik_ids_queued (status_csv (DownloadWorker.run fuel w q).1.2).
Proof.
  revert w q. induction fuel as [|fuel IH]; intros w q; [done|].
  destruct q as [|j q]; [done|]. cbn [DownloadWorker.run].
  pose proof (claims_run_job (State j w q)) as H1.
  destruct (DownloadWorker.run_job (State j w q)) as [[?|e|] s']; try done.
  etrans; [exact H1|apply IH].
Qed.

Lemma is_active_first s :
  tik_id (self s) ∉ claimed s →
  is_active s = (Ok false, State (self s) (claim (tik_id (self s)) (world s)) (queue s)).
Proof.
  intros H. unfold is_active, mbind, M_bind, bind, get_self, get_world. cbn.
  by rewrite decide_False.
Qed.

Lemma is_active_again s :
  tik_id (self s) ∈ claimed s → is_active s = (Ok true, s).
Proof.
  intros H. unfold is_active, mbind, M_bind, bind, get_self, get_world. cbn.
  by rewrite decide_True.
Qed.

(** The indexes and ids that a fresh job of a tik finds for its row. *)
Lemma get_indexes_of_tik j w q i :
  tik_id j ≠ "" → tik_indexes j = [] →
  CsvTikHolder.key_to_index (status_csv w)
    !! CsvTikHolder.key (ktatrova j) (gush j) (chelka j) (tik_id j) = Some i →
  get_indexes_from_status (State j w q) = (Ok (), State (set_tik_indexes [i] j) w q).
Proof.
  intros Htik Hidx Hkey.
  unfold get_indexes_from_status, mbind, M_bind, bind, get_self, get_world.
  cbn [self world]. destruct (decide (tik_id j = "")); [done|].
  rewrite Hkey, Hidx. reflexivity.
Qed.

Lemma update_fields_of_tik_id w j : tik_id (update_fields_of w j) = tik_id j.
Proof. unfold update_fields_of. repeat case_match; reflexivity. Qed.

Lemma list_of_set_singleton (x : string) : list_of_set [x] = [x].
Proof.
  unfold list_of_set. cbn. destruct (decide_rel elem_of x []) as [H|]; [|done].
  by apply not_elem_of_nil in H.
Qed.

(** A fresh job of a tik whose row is in the ledger: it returns when the
    row is [completed], and goes through the claim check otherwise. *)
Lemma download_of_tik j w q i r :
  start_idx j = 0%nat → tik_id j ≠ "" → tik_indexes j = [] →
  CsvTikHolder.key_to_index (status_csv w)
    !! CsvTikHolder.key (ktatrova j) (gush j) (chelka j) (tik_id j) = Some i →
  CsvTikHolder.rows (status_csv w) !! i = Some r →
  CsvTikHolder.tik_id r = tik_id j →
  download_docs_and_get_data (State j w q)
  = if decide (CsvTikHolder.status r = COMPLETED)
    then (Ok (), State (set_tik_indexes [i] j) w q)
    else (is_active ≫= λ active : bool, if active then ret () else finally fetch quit)
           (State (bound i w j) w q).
Proof.
  intros Hstart Htik Hidx Hkey Hrow Hr.
  unfold download_docs_and_get_data.
  unfold mbind at 1, M_bind at 1, bind at 1, get_self at 1. cbn [self].
  rewrite Hstart. rewrite (decide_False (P := (0 < 0)%nat)) by lia.
  unfold mbind at 1, M_bind at 1, bind at 1, ret at 1.
  unfold mbind at 1, M_bind at 1, bind at 1.
  rewrite (get_indexes_of_tik j w q i) by done.
  unfold mbind at 1, M_bind at 1, bind at 1, get_self at 1.
  unfold mbind at 1, M_bind at 1, bind at 1, get_world at 1.
  cbn [self world tik_indexes set_tik_indexes uncompleted].
  rewrite Hrow. cbn [mbind option_bind].
  destruct (decide (CsvTikHolder.status r = COMPLETED)) as [Hc|Hnc].
  - rewrite (decide_False (P := CsvTikHolder.status r ≠ COMPLETED)) by (by intros ?).
    rewrite decide_True by done. reflexivity.
  - rewrite (decide_True (P := CsvTikHolder.status r ≠ COMPLETED)) by done.
    rewrite Hr, list_of_set_singleton.
    rewrite decide_False by (by intros [_ ?]).
    rewrite decide_True by done.
    unfold mbind at 1, M_bind at 1, bind at 1.
    unfold mbind at 1, M_bind at 1, bind at 1, modify_self at 1, update_fields at 1.
    unfold mbind at 1, M_bind at 1, bind at 1, get_world at 1, modify_self at 1.
    cbn [self world queue head default].
    unfold mbind at 1, M_bind at 1, bind at 1, get_self at 1. cbn [self].
    fold (bound i w j). unfold bound at 1. rewrite update_fields_of_tik_id.
    cbn [tik_id set_tik_id]. rewrite decide_True by done. reflexivity.
Qed.

End claim_check_facts.

(** ** The keys and tiks of the ledger *)

Create HintDb tiks.

Section same_tiks_facts.
Import GushChelka.
Implicit Types (s : state) (w : World) (j : t).

#[global] Instance same_tiks_preorder : PreOrder same_tiks.
Proof.
  split.
  - by intros s.
  - intros s1 s2 s3 (? & ? & ?) (? & ? & ?). repeat split; congruence.
Qed.

Lemma tiks_modify_self (f : t → t) :
  (∀ j, tik_id (f j) = tik_id j) → preserves same_tiks (modify_self f).
Proof. intros Hf s. repeat split. cbn. apply Hf. Qed.

Lemma tiks_queue_put j : preserves same_tiks (queue_put j).
Proof. by intros s. Qed.

Lemma tiks_modify_world (f : World → World) :
  (∀ w, CsvTikHolder.key_to_index (status_csv (f w))
        = CsvTikHolder.key_to_index (status_csv w)) →
  (∀ w, CsvTikHolder.rows (status_csv (f w)) = CsvTikHolder.rows (status_csv w)) →
  preserves same_tiks (modify_world f).
Proof. intros Hk Hr s. split; [|split]; cbn; by rewrite ?Hk, ?Hr. Qed.

Lemma fmap_alter_tik_id (f : CsvTikHolder.record → CsvTikHolder.record) (n : nat)
    (rows : list CsvTikHolder.record) :
  (∀ r, CsvTikHolder.tik_id (f r) = CsvTikHolder.tik_id r) →
  CsvTikHolder.tik_id <$> alter f n rows = CsvTikHolder.tik_id <$> rows.
Proof.
  intros Hf. apply list_eq. intros k. rewrite !list_lookup_fmap.
  destruct (decide (k = n)) as [->|Hne].
  - rewrite list_lookup_alter_eq. destruct (rows !! n); simpl; by rewrite ?Hf.
  - by rewrite list_lookup_alter_ne.
Qed.

Lemma tiks_ledger_alter f i :
  (∀ r, CsvTikHolder.tik_id (f r) = CsvTikHolder.tik_id r) →
  preserves same_tiks (ledger_alter f i).
Proof.
  intros Hf s. unfold ledger_alter, mbind, M_bind, bind, get_world, py_alter. cbn.
  destruct (py_index _ i) as [n|]; cbn; [|done].
  split; [done|]. split; [|done]. cbn. by apply fmap_alter_tik_id.
Qed.

Lemma tiks_wait_for_doc p size : preserves same_tiks (wait_for_doc p size).
Proof.
  intros s. unfold wait_for_doc, same_tiks.
  pose proof (wait_for_doc_call_status_csv p size (world s)) as H.
  destruct (wait_for_doc_call p size (world s)) as [r w']. cbn in *. by rewrite H.
Qed.

Lemma tiks_update_status_csv : preserves same_tiks update_status_csv.
Proof.
  intros s. split; [done|]. split; [|done].
  rewrite update_status_csv_rows, <- list_fmap_compose.
  apply list_fmap_ext. intros k r _. cbn. case_decide; [|done].
  apply update_row_tik_id.
Qed.

Lemma tiks_update_fields : preserves same_tiks update_fields.
Proof.
  intros s. split; [done|]. split; [done|]. cbn. apply update_fields_of_tik_id.
Qed.

Hint Resolve tiks_queue_put tiks_wait_for_doc tiks_update_status_csv
  tiks_update_fields : tiks.

Ltac tiks :=
  repeat first
    [ preserves_step
    | by eauto with tiks
    | by apply tiks_modify_self
    | by apply tiks_modify_world
    | by apply tiks_ledger_alter ].

Lemma tiks_res_csv_to_csv : preserves same_tiks res_csv_to_csv.
Proof. unfold res_csv_to_csv. tiks. Qed.

Lemma tiks_put_tiks_in_queue : preserves same_tiks put_tiks_in_queue.
Proof.
  unfold put_tiks_in_queue. tiks.
  apply preserves_foldr; [tiks|]. intros x k Hk. tiks.
Qed.

Lemma tiks_search_no_results_message : preserves same_tiks search_no_results_message.
Proof. unfold search_no_results_message. tiks. Qed.

Lemma tiks_launch_and_accept_policy : preserves same_tiks launch_and_accept_policy.
Proof.
  unfold launch_and_accept_policy. tiks.
Qed.

Lemma tiks_quit : preserves same_tiks quit.
Proof. by apply tiks_modify_self. Qed.

Lemma tiks_td_click tr p : preserves same_tiks (td_click tr p).
Proof. unfold td_click. tiks. Qed.

Hint Resolve tiks_res_csv_to_csv tiks_put_tiks_in_queue tiks_search_no_results_message
  tiks_launch_and_accept_policy tiks_quit tiks_td_click : tiks.

Lemma tiks_handle_table_row tr : preserves same_tiks (handle_table_row tr).
Proof.
  unfold handle_table_row. tiks.
Qed.

Hint Resolve tiks_handle_table_row : tiks.

Lemma tiks_handle_rows trs : preserves same_tiks (handle_rows trs).
Proof.
  induction trs as [|tr trs IH]; cbn [handle_rows]; tiks.
Qed.

Hint Resolve tiks_handle_rows : tiks.

Lemma tiks_handle_table_views views : preserves same_tiks (handle_table_views views).
Proof.
  induction views as [|v views IH]; cbn [handle_table_views]; tiks.
Qed.

Hint Resolve tiks_handle_table_views : tiks.

Lemma tiks_handle_table : preserves same_tiks handle_table.
Proof. unfold handle_table. tiks. Qed.

Hint Resolve tiks_handle_table : tiks.

Lemma tiks_process_tik : preserves same_tiks process_tik.
Proof. unfold process_tik. tiks. Qed.

Lemma tiks_resume : preserves same_tiks resume.
Proof. unfold resume. tiks. Qed.

Hint Resolve tiks_process_tik : tiks.

(** The job of a tik leaves the keys and the tiks of the ledger alone
    when it fetches. *)
Lemma tiks_fetch s : tik_id (self s) ≠ "" → same_tiks s (finally fetch quit s).2.
Proof.
  intros Htik. unfold finally.
  assert (same_tiks s (fetch s).2) as Hfetch.
  { unfold fetch. unfold mbind at 1, M_bind at 1, bind at 1.
    pose proof (tiks_launch_and_accept_policy s) as H1.
    destruct (launch_and_accept_policy s) as [[[]|e|] s1]; [|done|done].
    cbn [snd] in H1. destruct H1 as (Hk1 & Hr1 & Ht1).
    unfold mbind at 1, M_bind at 1, bind at 1, get_self at 1.
    rewrite decide_False by congruence.
    unfold mbind at 1, M_bind at 1, bind at 1, ret at 1.
    unfold mbind at 1, M_bind at 1, bind at 1, get_self at 1.
    unfold mbind at 1, M_bind at 1, bind at 1.
    assert (same_tiks s1 ((if decide (tik_ids (self s1) ≠ [])
                           then put_tiks_in_queue else ret ()) s1).2) as H2.
    { case_decide; [apply tiks_put_tiks_in_queue|reflexivity]. }
    destruct ((if decide (tik_ids (self s1) ≠ []) then put_tiks_in_queue else ret ()) s1)
      as [[[]|e|] s2]; cbn [snd] in *.
    - rewrite decide_True by congruence.
      etrans; [by split|]. etrans; [exact H2|]. apply tiks_process_tik.
    - etrans; [by split|]. exact H2.
    - etrans; [by split|]. exact H2. }
  destruct (fetch s) as [r s1]. cbn [snd] in Hfetch.
  pose proof (tiks_quit s1) as Hquit.
  destruct r; [| |done]; destruct (quit s1) as [[[]|?|] s2]; cbn [snd] in *; by etrans.
Qed.

End same_tiks_facts.

#[global] Hint Resolve tiks_queue_put tiks_wait_for_doc tiks_update_status_csv
  tiks_update_fields tiks_res_csv_to_csv tiks_put_tiks_in_queue
  tiks_search_no_results_message tiks_launch_and_accept_policy tiks_quit tiks_td_click
  tiks_handle_table_row tiks_handle_rows tiks_handle_table_views tiks_handle_table : tiks.

Section no_duplicate_claim_facts.
Import GushChelka.
Implicit Types (s : state) (w : World) (j : t).

(** A fresh job of a tik that is claimed already returns and leaves the
    group and the queue as they are. *)
Lemma claimed_tik_is_skipped j w q i r :
  start_idx j = 0%nat → tik_id j ≠ "" → tik_indexes j = [] →
  CsvTikHolder.key_to_index (status_csv w)
    !! CsvTikHolder.key (ktatrova j) (gush j) (chelka j) (tik_id j) = Some i →
  CsvTikHolder.rows (status_csv w) !! i = Some r →
  CsvTikHolder.tik_id r = tik_id j →
  tik_id j ∈ CsvTikHolder.tik_ids_queued (status_csv w) →
  ∃ j', download_docs_and_get_data (State j w q) = (Ok (), State j' w q).
Proof.
  intros Hstart Htik Hidx Hkey Hrow Hr Hq.
  rewrite (download_of_tik j w q i r) by done.
  case_decide; [by eexists|].
  unfold mbind, M_bind, bind. rewrite is_active_again.
  - by eexists.
  - unfold claimed, bound. cbn [self world]. by rewrite update_fields_of_tik_id.
Qed.

(** C6.  [is_active] is a test-and-set on the active set of the group:
    the first call for a tik returns [False] and claims it, and since no
    job run removes a claim, every later call for this tik returns
    [True].  Of two fresh jobs bound to one case through the rows of two
    parcels, the first goes on to fetch, and the second, run after it,
    returns with the group and the queue untouched. *)
Theorem no_duplicate_claim j1 j2 w q i1 i2 r1 r2 :
  start_idx j1 = 0%nat → tik_indexes j1 = [] →
  start_idx j2 = 0%nat → tik_indexes j2 = [] →
  tik_id j1 ≠ "" → tik_id j2 = tik_id j1 →
  CsvTikHolder.key_to_index (status_csv w)
    !! CsvTikHolder.key (ktatrova j1) (gush j1) (chelka j1) (tik_id j1) = Some i1 →
  CsvTikHolder.rows (status_csv w) !! i1 = Some r1 →
  CsvTikHolder.tik_id r1 = tik_id j1 →
  CsvTikHolder.status r1 ≠ COMPLETED →
  CsvTikHolder.key_to_index (status_csv w)
    !! CsvTikHolder.key (ktatrova j2) (gush j2) (chelka j2) (tik_id j2) = Some i2 →
  CsvTikHolder.rows (status_csv w) !! i2 = Some r2 →
  CsvTikHolder.tik_id r2 = tik_id j1 →
  tik_id j1 ∉ CsvTikHolder.tik_ids_queued (status_csv w) →
  let s1 := State (bound i1 w j1) (claim (tik_id j1) w) q in
  let after := (download_docs_and_get_data (State j1 w q)).2 in
  is_active (State (bound i1 w j1) w q) = (Ok false, s1) ∧
  (∀ s, claims_grow s1 s → tik_id (self s) = tik_id j1 → is_active s = (Ok true, s)) ∧
  (∀ s, claims_grow s (DownloadWorker.run_job s).2) ∧
  download_docs_and_get_data (State j1 w q) = finally fetch quit s1 ∧
  ∃ j2', download_docs_and_get_data (State j2 (world after) (queue after))
         = (Ok (), State j2' (world after) (queue after)).
Proof.
  intros Hs1 Hx1 Hs2 Hx2 Htik Htik2 Hk1 Hrow1 Hr1 Hnc Hk2 Hrow2 Hr2 Hfree s1 after.
  assert (tik_id (bound i1 w j1) = tik_id j1) as Hbound.
  { unfold bound. by rewrite update_fields_of_tik_id. }
  assert (is_active (State (bound i1 w j1) w q) = (Ok false, s1)) as Hfirst.
  { rewrite is_active_first; cbn [self world queue]; rewrite ?Hbound; [done|].
    by unfold claimed. }
  assert (download_docs_and_get_data (State j1 w q) = finally fetch quit s1) as Hrun.
  { rewrite (download_of_tik j1 w q i1 r1) by done.
    rewrite decide_False by done. unfold mbind, M_bind, bind. by rewrite Hfirst. }
  split; [done|]. split; [|split; [|split; [done|]]].
  - intros s Hgrow Hs. apply is_active_again. apply Hgrow. rewrite Hs.
    unfold s1, claimed, claim. cbn. set_solver.
  - apply claims_run_job.
  - assert (same_tiks s1 after ∧ claims_grow s1 after) as [(Hkey & Hrows & _) Hgrow].
    { unfold after. rewrite Hrun. split.
      - apply tiks_fetch. unfold s1. cbn [self]. by rewrite Hbound.
      - apply preserves_finally; [apply _|apply claims_fetch|apply claims_quit]. }
    assert (∃ r2', CsvTikHolder.rows (status_csv (world after)) !! i2 = Some r2' ∧
                   CsvTikHolder.tik_id r2' = tik_id j2) as (r2' & Hrow2' & Hr2').
    { apply (f_equal (λ l, l !! i2)) in Hrows. rewrite !list_lookup_fmap in Hrows.
      cbn in Hrows. rewrite Hrow2 in Hrows.
      destruct (CsvTikHolder.rows (status_csv (world after)) !! i2) as [r2'|]; [|done].
      exists r2'. split; [done|]. cbn in Hrows. congruence. }
    eapply (claimed_tik_is_skipped j2 _ _ i2 r2'); try done.
    + congruence.
    + rewrite Hkey. exact Hk2.
    + apply Hgrow. rewrite Htik2. unfold s1, claimed, claim. cbn. set_solver.
Qed.

Lemma no_duplicate_claim_witness :
  let w := Scenario.shared_case in
  let after :=
    (download_docs_and_get_data (State (Scenario.fresh_tik_job w "5") w [])).2 in
  ∃ j2', download_docs_and_get_data
           (State (Scenario.fresh_tik_job w "6") (world after) (queue after))
         = (Ok (), State j2' (world after) (queue after)).
Proof.
  intros w after.
  apply (no_duplicate_claim (Scenario.fresh_tik_job w "5") (Scenario.fresh_tik_job w "6")
           w [] 0 1 (Scenario.ledger_row "5" "T1" "") (Scenario.ledger_row "6" "T1" ""));
    try reflexivity; discriminate.
Defined.

End no_duplicate_claim_facts.

(** ** The counters of the job while its table is read *)

Section counters_facts.
Import GushChelka.
Implicit Types (s : state) (w : World) (j : t).

#[global] Instance same_self_preorder : PreOrder same_self.
Proof. unfold same_self. split; [by intros s|]. intros s1 s2 s3. congruence. Qed.

Lemma self_modify_world f : preserves same_self (modify_world f).
Proof. by intros s. Qed.

Lemma self_ledger_alter f i : preserves same_self (ledger_alter f i).
Proof.
  intros s. unfold ledger_alter, mbind, M_bind, bind, get_world. cbn.
  by destruct (py_alter _ _ _).
Qed.

Lemma self_wait_for_doc p size : preserves same_self (wait_for_doc p size).
Proof. intros s. unfold wait_for_doc. by destruct (wait_for_doc_call _ _ _). Qed.

Lemma self_td_click tr p : preserves same_self (td_click tr p).
Proof.
  unfold td_click.
  repeat first [preserves_step | by apply self_modify_world].
Qed.

(** A row leaves the job as it is, or with one more document recorded. *)
Lemma handle_table_row_self tr s :
  self (handle_table_row tr s).2 = self s ∨
  ∃ record, self (handle_table_row tr s).2 = recorded record (self s).
Proof.
  unfold handle_table_row.
  destruct (Web.cells tr !! PDFBTN); [|by left].
  destruct (Web.documentid tr) as [doc_file|]; [|by left].
  right. eexists.
  unfold mbind at 1, M_bind at 1, bind at 1, get_self at 1.
  unfold mbind at 1, M_bind at 1, bind at 1, modify_self at 1.
  match goal with |- self (?m ?s1).2 = _ =>
    assert (preserves same_self m) as Hm; [|exact (Hm s1)] end.
  repeat first [ preserves_step | by apply self_ledger_alter | by apply self_td_click
               | by apply self_wait_for_doc ].
Qed.

Lemma handle_table_row_counters tr s :
  let j := self s in
  let j' := self (handle_table_row tr s).2 in
  docs_in_web j' = docs_in_web j ∧ current_page j' = current_page j ∧
  current_row j' = current_row j ∧ start_idx j' = start_idx j ∧
  docs_in_csv j <= docs_in_csv j' <= docs_in_csv j + 1.
Proof.
  intros j j'. unfold j', j. clear j j'.
  destruct (handle_table_row_self tr s) as [->|[record ->]];
    unfold recorded; cbn; repeat split; try reflexivity; lia.
Qed.

Lemma update_fields_of_counters w j :
  let j' := update_fields_of w j in
  docs_in_web j' = docs_in_web j ∧ docs_in_csv j' = docs_in_csv j ∧
  current_page j' = current_page j ∧ current_row j' = current_row j ∧
  start_idx j' = start_idx j.
Proof. unfold update_fields_of. repeat case_match; done. Qed.

(** The rows of a page: each one counts in [current_row] and records at
    most one document.  After the back link the cursor is on the last
    row read. *)
Lemma handle_rows_counters trs s :
  let j := self s in
  let j' := self (handle_rows trs s).2 in
  docs_in_web j' = docs_in_web j ∧ current_page j' = current_page j ∧
  docs_in_csv j' - Z.of_nat (current_row j') <= docs_in_csv j - Z.of_nat (current_row j) ∧
  docs_in_csv j <= docs_in_csv j' ∧
  ((handle_rows trs s).1 = Ok true →
     start_idx j' = current_row j' ∧ (1 <= current_row j')%nat) ∧
  ((handle_rows trs s).1 ≠ Ok true → start_idx j' = start_idx j).
Proof.
  revert s. induction trs as [|tr trs IH]; intros s; cbn zeta.
  { cbn. repeat split; try lia; try done. }
  cbn [handle_rows]. rewrite run_modify_self.
  destruct (Web.find_fault tr).
  { rewrite run_raise. cbn. repeat split; try lia; try done. }
  rewrite run_ret, run_bind.
  pose proof (handle_table_row_counters tr
                (State (set_current_row (S (current_row (self s))) (self s))
                       (world s) (queue s))) as Hrow.
  destruct (handle_table_row tr _) as [[[]|e|] s2]; cbn zeta in Hrow; cbn [snd self] in Hrow;
    destruct Hrow as (Hw & Hp & Hr & Hi & Hc); cbn in Hw, Hp, Hr, Hi, Hc.
  - destruct (Web.back_btn tr).
    + rewrite run_modify_world, run_modify_self. cbn.
      rewrite Hw, Hp, Hr. repeat split; try lia; done.
    + specialize (IH s2). cbn zeta in IH.
      destruct IH as (Hw' & Hp' & Hq' & Hc' & Ht' & Hf').
      split; [congruence|]. split; [congruence|]. split; [lia|]. split; [lia|].
      split; [exact Ht'|]. intros Hn. by rewrite (Hf' Hn).
  - cbn. rewrite Hw, Hp, Hr. repeat split; try lia; done.
  - cbn. rewrite Hw, Hp, Hr. repeat split; try lia; done.
Qed.

(** [handle_table] keeps the recorded count within the declared count
    and the rows read on the current page, whatever its outcome: it
    turns the page only when the recorded count is within the declared
    one. *)
Lemma handle_table_views_within views s :
  at_page_start (self s) →
  Forall (λ v, 0 <= Web.web_count v) views →
  within_page (self (handle_table_views views s).2).
Proof.
  revert s. induction views as [|v views IH]; intros s (He & Hin & Hpage & Hfirst) Hviews.
  { exact Hin. }
  apply Forall_cons in Hviews as [Hv Hviews].
  cbn [handle_table_views]. rewrite run_modify_self, run_get_self. cbn [self].
  set (j1 := set_driver (Web.set_views views <$> driver (self s)) (self s)).
  assert (docs_in_csv j1 = docs_in_csv (self s) ∧ docs_in_web j1 = docs_in_web (self s) ∧
          start_idx j1 = start_idx (self s) ∧ current_row j1 = current_row (self s) ∧
          current_page j1 = current_page (self s)) as (Hc1 & Hw1 & Hs1 & Hr1 & Hp1) by done.
  rewrite run_bind.
  (* the declared count is read on the first page *)
  match goal with |- context [(if decide ?P then ?m1 else ?m2) ?s1] =>
    assert (∃ r s2, (if decide P then m1 else m2) s1 = (r, s2) ∧
              start_idx (self s2) = start_idx j1 ∧
              current_row (self s2) = current_row j1 ∧
              current_page (self s2) = current_page j1 ∧
              docs_in_csv (self s2) = docs_in_csv j1 ∧
              docs_in_csv (self s2) - Z.of_nat (start_idx (self s2)) <= docs_in_web (self s2) ∧
              within_page (self s2)) as (r & s2 & -> & Hs2 & Hr2 & Hp2 & Hc2 & He2 & Hin2)
  end.
  { destruct (decide (current_page j1 = 1%nat ∧ start_idx j1 = 0%nat)) as [[Hp Hs]|Hn].
    - assert (docs_in_csv (self s) = 0) as H0 by (apply Hfirst; congruence).
      rewrite run_modify_self, run_bind.
      pose proof (self_ledger_alter
                    (CsvTikHolder.set_docs_in_web (str (Web.web_count v))) (status_index j1)
                    (State (set_docs_in_web (Web.web_count v) j1) (world s) (queue s)))
        as Hself.
      destruct (ledger_alter _ _ _) as [[[]|e|] s2]; unfold same_self in Hself;
        cbn [snd self] in Hself.
      + rewrite run_modify_world. cbn. eexists _, _. split; [done|]. cbn.
        rewrite Hself. unfold within_page. cbn. repeat split; try done; lia.
      + eexists _, _. split; [done|]. rewrite Hself. unfold within_page. cbn.
        repeat split; try done; lia.
      + eexists _, _. split; [done|]. rewrite Hself. unfold within_page. cbn.
        repeat split; try done; lia.
    - eexists _, _. split; [done|]. cbn [self]. unfold within_page in *.
      repeat split; try done; lia. }
  destruct r as [[]|e|]; [|done|done].
  rewrite run_modify_self, run_bind.
  set (s3 := State (set_current_row (start_idx (self s2)) (self s2)) (world s2) (queue s2)).
  pose proof (handle_rows_counters (drop (start_idx j1) (Web.trs v)) s3) as Hrows.
  cbn zeta in Hrows. destruct Hrows as (Hw4 & Hp4 & Hq4 & Hc4 & Hback & Hnoback).
  cbn [s3 self docs_in_web docs_in_csv current_page current_row start_idx
       set_current_row] in Hw4, Hp4, Hq4, Hc4, Hnoback.
  assert (within_page (self (handle_rows (drop (start_idx j1) (Web.trs v)) s3).2)) as Hin4.
  { unfold within_page. lia. }
  destruct (handle_rows (drop (start_idx j1) (Web.trs v)) s3) as [[[|]|e|] s4];
    cbn [fst snd] in *; [| |done|done].
  - (* the back link: the page is read again from the cursor *)
    destruct Hback as [Hs4 Hr4]; [done|].
    apply IH; [|done]. unfold within_page in Hin4.
    split; [|split; [done|split]]; [lia|lia|]. intros _ Hz. lia.
  - rewrite run_get_self.
    destruct (decide (docs_in_csv (self s4) > docs_in_web (self s4))) as [|Hle]; [done|].
    destruct (Web.next_page_btn v); [|done].
    rewrite run_modify_self, run_bind. cbn [update_fields run_get_world].
    unfold update_fields at 1. rewrite run_get_world. cbn [world].
    unfold modify_self at 1. cbn [self world queue].
    rewrite run_modify_world.
    apply IH; [|done]. cbn [self].
    match goal with |- at_page_start (update_fields_of ?w ?j) =>
      pose proof (update_fields_of_counters w j) as (Hw5 & Hc5 & Hp5 & Hr5 & Hs5) end.
    unfold at_page_start, within_page in *. rewrite Hw5, Hc5, Hp5, Hr5, Hs5. cbn.
    split; [lia|]. split; [lia|]. split; [lia|]. intros Hp. lia.
Qed.

(** C5 fails as stated: the site declares one document and lists two;
    when the table is read the job has recorded two documents against
    one declared, and so has its row of the ledger. *)
Lemma recorded_exceeds_declared :
  let s' := (handle_table Scenario.two_listed).2 in
  (handle_table Scenario.two_listed).1 = Ok () ∧
  docs_in_csv (self s') = 2 ∧ docs_in_web (self s') = 1 ∧
  (λ r, (CsvTikHolder.docs_in_csv r, CsvTikHolder.docs_in_web r))
    <$> CsvTikHolder.rows (status_csv (world s')) = [("2", "1")].
Proof. vm_compute. repeat split; reflexivity. Qed.

(** C5, as amended.  While the table of a case is read - by a job that
    starts on it, or by one that was put back in the queue with its
    cursor on the last row read - the recorded count stays within the
    declared count plus the rows read on the current page, whatever the
    outcome of [handle_table]: each row records at most one document,
    and the next page is entered only when the recorded count is within
    the declared one.  The declared counts that the site shows are not
    negative. *)
Theorem recorded_within_declared_and_page s d :
  driver (self s) = Some d →
  Forall (λ v, 0 <= Web.web_count v) (Web.views d) →
  let j := self s in
  (docs_in_csv j = 0 ∧ 0 <= docs_in_web j ∧ start_idx j = 0%nat ∧ current_page j = 1%nat)
  ∨ (within_page j ∧ start_idx j = current_row j ∧ (0 < start_idx j)%nat ∧
     (1 <= current_page j)%nat) →
  let j' := self (handle_table s).2 in
  docs_in_csv j' <= docs_in_web j' + Z.of_nat (current_row j').
Proof.
  intros Hd Hviews j Hstart. cbn zeta. unfold handle_table.
  rewrite run_get_self, Hd. apply handle_table_views_within; [|done].
  fold j. unfold at_page_start, within_page in *.
  destruct Hstart as [(H0 & Hw & Hs & Hp)|(Hin & Hs & Hpos & Hp)].
  - rewrite H0, Hs, Hp. repeat split; try lia; done.
  - rewrite Hs in *. repeat split; try lia; done.
Qed.

Lemma recorded_within_declared_and_page_witness :
  let j' := self (handle_table Scenario.two_listed).2 in
  docs_in_csv j' <= docs_in_web j' + Z.of_nat (current_row j').
Proof.
  apply (recorded_within_declared_and_page Scenario.two_listed Scenario.two_listed_session).
  - reflexivity.
  - repeat constructor. vm_compute. discriminate.
  - left. vm_compute. repeat split; try reflexivity. discriminate.
Defined.

End counters_facts.

(** ** The persisted ledger *)

Create HintDb flushed.

Section persisted_facts.
Import GushChelka.
Implicit Types (s : state) (w : World) (j : t).

Lemma flushes_keeps {A} (m : M A) : flushes m → keeps_flushed m.
Proof. intros H s _. apply H. Qed.

Lemma keeps_bind {A B} (m : M A) (k : A → M B) :
  keeps_flushed m → (∀ a, keeps_flushed (k a)) → keeps_flushed (m ≫= k).
Proof.
  intros Hm Hk s Hs. rewrite run_bind. specialize (Hm s Hs).
  destruct (m s) as [[a|e|] s1]; cbn [fst snd] in *.
  - apply Hk, Hm. eauto.
  - by intros [? ?].
  - by intros [? ?].
Qed.

Lemma flushes_bind_r {A B} (m : M A) (k : A → M B) :
  (∀ a, flushes (k a)) → flushes (m ≫= k).
Proof.
  intros Hk s. rewrite run_bind.
  destruct (m s) as [[a|e|] s1]; cbn [fst snd] in *.
  - apply Hk.
  - by intros [? ?].
  - by intros [? ?].
Qed.

Lemma flushes_bind_l {A B} (m : M A) (k : A → M B) :
  flushes m → (∀ a, keeps_flushed (k a)) → flushes (m ≫= k).
Proof.
  intros Hm Hk s. rewrite run_bind. specialize (Hm s).
  destruct (m s) as [[a|e|] s1]; cbn [fst snd] in *.
  - apply Hk, Hm. eauto.
  - by intros [? ?].
  - by intros [? ?].
Qed.

Lemma keeps_finally {A} (body : M A) (fin : M unit) :
  keeps_flushed body → keeps_flushed fin → keeps_flushed (finally body fin).
Proof.
  intros Hb Hf s Hs. unfold finally. specialize (Hb s Hs).
  destruct (body s) as [[a|e|] s1]; cbn [fst snd] in *.
  - specialize (Hf s1 (Hb (ex_intro _ a eq_refl))).
    destruct (fin s1) as [[[]|e|] s2]; cbn [fst snd] in *; intros [? ?]; try done.
    apply Hf. eauto.
  - destruct (fin s1) as [[[]|e'|] s2]; by intros [? ?].
  - by intros [? ?].
Qed.

Lemma flushes_finally {A} (body : M A) (fin : M unit) :
  flushes body → keeps_flushed fin → flushes (finally body fin).
Proof.
  intros Hb Hf s. unfold finally. specialize (Hb s).
  destruct (body s) as [[a|e|] s1]; cbn [fst snd] in *.
  - specialize (Hf s1 (Hb (ex_intro _ a eq_refl))).
    destruct (fin s1) as [[[]|e|] s2]; cbn [fst snd] in *; intros [? ?]; try done.
    apply Hf. eauto.
  - destruct (fin s1) as [[[]|e'|] s2]; by intros [? ?].
  - by intros [? ?].
Qed.

Lemma keeps_ret {A} (a : A) : keeps_flushed (ret a).
Proof. by intros s Hs _. Qed.

Lemma keeps_raise {A} e : keeps_flushed (@raise A e).
Proof. by intros s Hs [? ?]. Qed.

Lemma keeps_get_self : keeps_flushed get_self.
Proof. by intros s Hs _. Qed.

Lemma keeps_get_world : keeps_flushed get_world.
Proof. by intros s Hs _. Qed.

Lemma keeps_modify_self f : keeps_flushed (modify_self f).
Proof. by intros s Hs _. Qed.

Lemma keeps_queue_put j : keeps_flushed (queue_put j).
Proof. by intros s Hs _. Qed.

(** A change of the world that leaves the rows and the file alone. *)
Lemma keeps_modify_world (f : World → World) :
  (∀ w, CsvTikHolder.rows (status_csv (f w)) = CsvTikHolder.rows (status_csv w)) →
  (∀ w, status_file (f w) = status_file w) →
  keeps_flushed (modify_world f).
Proof. intros Hr Hf s Hs _. unfold persisted. cbn. by rewrite Hr, Hf. Qed.

Lemma persisted_flush w : persisted (flush w).
Proof.
  unfold persisted, flush, CsvTikHolder.to_csv. cbn.
  by destruct (CsvTikHolder.rows (status_csv w)).
Qed.

Lemma flushes_flush : flushes (modify_world flush).
Proof. intros s _. apply persisted_flush. Qed.

Lemma flushes_update_status_csv : flushes update_status_csv.
Proof. intros s _. rewrite update_status_csv_eq. apply persisted_flush. Qed.

Lemma flushes_add_status_records : flushes add_status_records.
Proof.
  intros s. unfold add_status_records. rewrite run_get_self, run_get_world.
  destruct (CsvTikHolder.extend _ _) as [h ok]. rewrite run_modify_world.
  destruct ok; [|by intros [? ?]]. intros _. apply persisted_flush.
Qed.

Hint Resolve keeps_ret keeps_raise keeps_get_self keeps_get_world keeps_modify_self
  keeps_queue_put : flushed.

Ltac keeps :=
  repeat first
    [ match goal with
      | |- keeps_flushed (_ ≫= _) => apply keeps_bind; [|intros ?]
      | |- keeps_flushed (finally _ _) => apply keeps_finally
      | |- keeps_flushed (if ?b then _ else _) => destruct b
      | |- keeps_flushed (match ?x with _ => _ end) => destruct x
      | |- keeps_flushed (modify_world _) => by apply keeps_modify_world
      end
    | by eauto with flushed
    | by (apply flushes_keeps; eauto with flushed) ].

Lemma keeps_update_fields : keeps_flushed update_fields.
Proof. unfold update_fields. keeps. Qed.

Lemma keeps_is_active : keeps_flushed is_active.
Proof. unfold is_active. keeps. Qed.

Lemma keeps_put_tiks_in_queue : keeps_flushed put_tiks_in_queue.
Proof.
  unfold put_tiks_in_queue. keeps.
  match goal with |- keeps_flushed (foldr _ _ ?l) => induction l; cbn [foldr]; keeps end.
Qed.

Lemma keeps_get_indexes_from_status : keeps_flushed get_indexes_from_status.
Proof. unfold get_indexes_from_status. keeps. Qed.

Lemma keeps_search_no_results_message : keeps_flushed search_no_results_message.
Proof. unfold search_no_results_message. keeps. Qed.

Hint Resolve keeps_search_no_results_message : flushed.

Lemma keeps_get_tik_ids : keeps_flushed get_tik_ids.
Proof. unfold get_tik_ids. keeps. Qed.

Lemma keeps_launch_and_accept_policy : keeps_flushed launch_and_accept_policy.
Proof. unfold launch_and_accept_policy. keeps. Qed.

Lemma keeps_quit : keeps_flushed quit.
Proof. unfold quit. keeps. Qed.

Lemma keeps_res_csv_to_csv : keeps_flushed res_csv_to_csv.
Proof. unfold res_csv_to_csv. keeps. Qed.

Hint Resolve keeps_update_fields keeps_is_active keeps_put_tiks_in_queue
  keeps_get_indexes_from_status keeps_get_tik_ids keeps_launch_and_accept_policy
  keeps_quit keeps_res_csv_to_csv : flushed.

(** The handling of a tik ends with [update_status_csv], and so does
    the run of a job that was put back. *)
Lemma flushes_process_tik : flushes process_tik.
Proof.
  unfold process_tik. apply flushes_bind_r. intros _.
  apply flushes_bind_r. intros j. apply flushes_bind_r. intros _.
  apply flushes_update_status_csv.
Qed.

Lemma flushes_resume : flushes resume.
Proof.
  unfold resume. apply flushes_finally; [|apply keeps_quit].
  do 3 (apply flushes_bind_r; intros _). apply flushes_update_status_csv.
Qed.

Lemma flushes_discover_tiks : flushes discover_tiks.
Proof.
  unfold discover_tiks. apply flushes_bind_r. intros _.
  apply flushes_bind_l; [apply flushes_add_status_records|]. intros _. keeps.
Qed.


Hint Resolve flushes_process_tik flushes_resume flushes_discover_tiks : flushed.

Lemma keeps_fetch : keeps_flushed fetch.
Proof. unfold fetch. keeps. Qed.

Hint Resolve keeps_fetch : flushed.






End persisted_facts.

(** ** The retry of a job *)

Section retry_facts.
Import GushChelka.
Implicit Types (s : state) (w : World) (j : t).


Lemma on_fault_self s :
  self (DownloadWorker.on_fault s).2
  = if decide (docs_in_csv (self s) < docs_in_web (self s))
    then set_start_idx (current_row (self s)) (self s) else self s.
Proof.
  unfold DownloadWorker.on_fault. rewrite run_bind.
  assert (∃ w1, res_csv_to_csv s = (Ok (), State (self s) w1 (queue s))) as [w1 ->].
  { unfold res_csv_to_csv. rewrite run_get_self. destruct s. case_decide; by eexists. }
  rewrite run_bind, update_status_csv_eq, run_get_self. cbn [self].
  by case_decide.
Qed.





End retry_facts.

(** ** A whole run *)

Section whole_run_facts.
Import GushChelka.

(** The worker takes the parcel, finds the case and puts its job in the
    queue, then takes that job: the first document is passed over, the
    wait for the second runs out, and the case ends as a mismatch with
    two documents declared and recorded, one in the directory and one
    missing from it. *)
Lemma end_to_end_scenario :
  let w := Scenario.end_to_end in
  let out := DownloadWorker.run 2 w [parcel_job w "G1" "100" "5"] in
  out.1.1 = Ok () ∧ out.2 = [] ∧
  CsvTikHolder.rows (status_csv out.1.2)
    = [CsvTikHolder.Record "G1" "100" "5" "T1" MISMATCH "" "2" "1" "2" "1" "0"] ∧
  status_file out.1.2 = Some (CsvTikHolder.rows (status_csv out.1.2)) ∧
  now out.1.2 = 60.
Proof. vm_compute. repeat split; reflexivity. Qed.

End whole_run_facts.
